(** * Cookie session codec and lifecycle (src/lib/session.ts, src/app/protected/page.tsx)

    A shallow embedding of the session token codec ([b64url], [b64urlDecode],
    [hmac], [encrypt], [decrypt]), of the session lifecycle ([getSession],
    [updateSession], [login], [logout]) and of the flash list kept by the
    protected page ([ProtectedPage], [saveAction]).

    Conventions.
    - A JavaScript string is the list of its UTF-16 code units ([jsstring]);
      a byte array is the list of its bytes ([bytes]); both are lists of [Z].
    - A JavaScript number is modelled as an exact decimal [m * 10^e]; the
      rounding and the overflow of binary64 are outside the model.
    - [Date.now()] is an argument: every read of the clock is its own
      parameter.
    - The platform functions the source calls (TextEncoder, TextDecoder,
      Buffer base64, crypto.subtle HMAC, String.prototype.split,
      JSON.stringify, JSON.parse) are written out as executable functions. *)

From Stdlib Require Import ZArith List Lia Bool String Ascii.
Import ListNotations.
Local Open Scope Z_scope.

(* ================================================================= *)
(** ** Strings and bytes *)

Definition jsstring := list Z.
Definition bytes := list Z.

(** A string literal of the source, as code units. *)
Definition str (s : string) : jsstring :=
  map (fun a => Z.of_N (N_of_ascii a)) (list_ascii_of_string s).

Fixpoint str_eqb (a b : jsstring) : bool :=
  match a, b with
  | [], [] => true
  | x :: a', y :: b' => (x =? y) && str_eqb a' b'
  | _, _ => false
  end.

Definition is_code_unit (c : Z) : Prop := 0 <= c < 65536.
Definition is_byte (b : Z) : Prop := 0 <= b < 256.

(* ================================================================= *)
(** ** SHA-256 and HMAC (crypto.subtle with { name: "HMAC", hash: "SHA-256" }) *)

Module SHA256.

Definition w32 (x : Z) : Z := x mod 4294967296.
Definition add32 (x y : Z) : Z := w32 (x + y).
Definition rotr (n x : Z) : Z :=
  Z.lor (Z.shiftr x n) (w32 (Z.shiftl x (32 - n))).
Definition Ch (x y z : Z) : Z :=
  Z.lxor (Z.land x y) (Z.land (w32 (Z.lnot x)) z).
Definition Maj (x y z : Z) : Z :=
  Z.lxor (Z.lxor (Z.land x y) (Z.land x z)) (Z.land y z).
Definition Sigma0 (x : Z) : Z := Z.lxor (Z.lxor (rotr 2 x) (rotr 13 x)) (rotr 22 x).
Definition Sigma1 (x : Z) : Z := Z.lxor (Z.lxor (rotr 6 x) (rotr 11 x)) (rotr 25 x).
Definition sigma0 (x : Z) : Z := Z.lxor (Z.lxor (rotr 7 x) (rotr 18 x)) (Z.shiftr x 3).
Definition sigma1 (x : Z) : Z := Z.lxor (Z.lxor (rotr 17 x) (rotr 19 x)) (Z.shiftr x 10).

(** The round constants of FIPS 180-4, section 4.2.2, in decimal. *)
Definition K : list Z :=
  [
   1116352408; 1899447441; 3049323471; 3921009573; 961987163; 1508970993;
   2453635748; 2870763221; 3624381080; 310598401; 607225278; 1426881987;
   1925078388; 2162078206; 2614888103; 3248222580; 3835390401; 4022224774;
   264347078; 604807628; 770255983; 1249150122; 1555081692; 1996064986;
   2554220882; 2821834349; 2952996808; 3210313671; 3336571891; 3584528711;
   113926993; 338241895; 666307205; 773529912; 1294757372; 1396182291;
   1695183700; 1986661051; 2177026350; 2456956037; 2730485921; 2820302411;
   3259730800; 3345764771; 3516065817; 3600352804; 4094571909; 275423344;
   430227734; 506948616; 659060556; 883997877; 958139571; 1322822218;
   1537002063; 1747873779; 1955562222; 2024104815; 2227730452; 2361852424;
   2428436474; 2756734187; 3204031479; 3329325298
  ].

(** The initial hash value, section 5.3.3. *)
Definition H0 : list Z :=
  [
   1779033703; 3144134277; 1013904242; 2773480762;
   1359893119; 2600822924; 528734635; 1541459225
  ].

(** Big-endian bytes of a word of [n] bytes. *)
Fixpoint be_bytes (n : nat) (x : Z) : bytes :=
  match n with
  | O => []
  | S n' => (Z.shiftr x (8 * Z.of_nat n')) mod 256 :: be_bytes n' x
  end.

Definition be_word (b0 b1 b2 b3 : Z) : Z :=
  Z.lor (Z.lor (Z.shiftl b0 24) (Z.shiftl b1 16)) (Z.lor (Z.shiftl b2 8) b3).

Definition pad (msg : bytes) : bytes :=
  let len := Z.of_nat (List.length msg) in
  msg ++ [128] ++ repeat 0 (Z.to_nat ((55 - len) mod 64)) ++ be_bytes 8 (8 * len).

Fixpoint words (fuel : nat) (bs : bytes) : list Z :=
  match fuel, bs with
  | S f, b0 :: b1 :: b2 :: b3 :: rest => be_word b0 b1 b2 b3 :: words f rest
  | _, _ => []
  end.

(** The message schedule, most recent word first. *)
Fixpoint schedule (n : nat) (ws : list Z) : list Z :=
  match n with
  | O => ws
  | S n' =>
      let w := add32 (add32 (sigma1 (nth 1 ws 0)) (nth 6 ws 0))
                     (add32 (sigma0 (nth 14 ws 0)) (nth 15 ws 0)) in
      schedule n' (w :: ws)
  end.

Definition round (st : list Z) (kw : Z * Z) : list Z :=
  match st with
  | [a; b; c; d; e; f; g; h] =>
      let t1 := add32 (add32 (add32 h (Sigma1 e)) (add32 (Ch e f g) (fst kw))) (snd kw) in
      let t2 := add32 (Sigma0 a) (Maj a b c) in
      [add32 t1 t2; a; b; c; add32 d t1; e; f; g]
  | _ => st
  end.

Definition compress (h : list Z) (block : list Z) : list Z :=
  let ws := rev (schedule 48 (rev block)) in
  let st := fold_left round (combine K ws) h in
  map (fun p => add32 (fst p) (snd p)) (combine h st).

Fixpoint blocks (fuel : nat) (ws : list Z) (h : list Z) : list Z :=
  match fuel with
  | O => h
  | S f =>
      match ws with
      | [] => h
      | _ => blocks f (skipn 16 ws) (compress h (firstn 16 ws))
      end
  end.

Definition digest (msg : bytes) : bytes :=
  let p := pad msg in
  let ws := words (List.length p) p in
  flat_map (be_bytes 4) (blocks (List.length ws) ws H0).

End SHA256.

Definition xor_pad (c : Z) (key : bytes) : bytes := map (Z.lxor c) key.

(** HMAC (RFC 2104) with SHA-256, block size 64. *)
Definition hmac_sha256 (key msg : bytes) : bytes :=
  let k0 := if (64 <? Z.of_nat (List.length key)) then SHA256.digest key else key in
  let k := k0 ++ repeat 0 (64 - List.length k0) in
  SHA256.digest (xor_pad 92 k ++ SHA256.digest (xor_pad 54 k ++ msg)).

(* ================================================================= *)
(** ** TextEncoder and TextDecoder (UTF-8) *)

Definition in_range (lo hi c : Z) : bool := (lo <=? c) && (c <=? hi).
Definition is_high_surrogate (c : Z) : bool := in_range 55296 56319 c.
Definition is_low_surrogate (c : Z) : bool := in_range 56320 57343 c.

(** U+FFFD in UTF-8. *)
Definition replacement_bytes : bytes := [239; 191; 189].

Definition utf8_encode_cp (cp : Z) : bytes :=
  if cp <? 128 then [cp]
  else if cp <? 2048 then [192 + cp / 64; 128 + cp mod 64]
  else if cp <? 65536 then
    [224 + cp / 4096; 128 + (cp / 64) mod 64; 128 + cp mod 64]
  else
    [240 + cp / 262144; 128 + (cp / 4096) mod 64; 128 + (cp / 64) mod 64;
     128 + cp mod 64].

(** [new TextEncoder().encode(s)]: a surrogate pair is one code point, a
    lone surrogate is encoded as U+FFFD. *)
Fixpoint TextEncoder_encode (s : jsstring) : bytes :=
  match s with
  | [] => []
  | c :: rest =>
      if is_high_surrogate c then
        match rest with
        | l :: rest' =>
            if is_low_surrogate l
            then utf8_encode_cp (65536 + (c - 55296) * 1024 + (l - 56320))
                   ++ TextEncoder_encode rest'
            else replacement_bytes ++ TextEncoder_encode rest
        | [] => replacement_bytes
        end
      else if is_low_surrogate c then replacement_bytes ++ TextEncoder_encode rest
      else utf8_encode_cp c ++ TextEncoder_encode rest
  end.

(** The UTF-8 decoder of the Encoding standard, without the fatal flag: an
    ill-formed sequence gives U+FFFD and decoding resumes at the byte that
    broke it.  The result is a list of code points. *)
Fixpoint utf8_decode (bs : bytes) : list Z :=
  match bs with
  | [] => []
  | b0 :: r =>
      if b0 <? 128 then b0 :: utf8_decode r
      else if in_range 194 223 b0 then
        match r with
        | b1 :: r1 =>
            if in_range 128 191 b1
            then ((b0 - 192) * 64 + (b1 - 128)) :: utf8_decode r1
            else 65533 :: utf8_decode r
        | [] => [65533]
        end
      else if in_range 224 239 b0 then
        let lo := if b0 =? 224 then 160 else 128 in
        let hi := if b0 =? 237 then 159 else 191 in
        match r with
        | b1 :: r1 =>
            if in_range lo hi b1 then
              match r1 with
              | b2 :: r2 =>
                  if in_range 128 191 b2
                  then ((b0 - 224) * 4096 + (b1 - 128) * 64 + (b2 - 128))
                         :: utf8_decode r2
                  else 65533 :: utf8_decode r1
              | [] => [65533]
              end
            else 65533 :: utf8_decode r
        | [] => [65533]
        end
      else if in_range 240 244 b0 then
        let lo := if b0 =? 240 then 144 else 128 in
        let hi := if b0 =? 244 then 143 else 191 in
        match r with
        | b1 :: r1 =>
            if in_range lo hi b1 then
              match r1 with
              | b2 :: r2 =>
                  if in_range 128 191 b2 then
                    match r2 with
                    | b3 :: r3 =>
                        if in_range 128 191 b3
                        then ((b0 - 240) * 262144 + (b1 - 128) * 4096
                              + (b2 - 128) * 64 + (b3 - 128))
                               :: utf8_decode r3
                        else 65533 :: utf8_decode r2
                    | [] => [65533]
                    end
                  else 65533 :: utf8_decode r1
              | [] => [65533]
              end
            else 65533 :: utf8_decode r
        | [] => [65533]
        end
      else 65533 :: utf8_decode r
  end.

Definition cp_to_utf16 (cp : Z) : jsstring :=
  if cp <? 65536 then [cp]
  else [55296 + (cp - 65536) / 1024; 56320 + (cp - 65536) mod 1024].

(** A leading U+FEFF is dropped (the decoder's ignoreBOM flag is unset). *)
Definition strip_bom (cps : list Z) : list Z :=
  match cps with
  | c :: rest => if c =? 65279 then rest else cps
  | [] => []
  end.

(** [new TextDecoder().decode(bytes)]. *)
Definition TextDecoder_decode (bs : bytes) : jsstring :=
  flat_map cp_to_utf16 (strip_bom (utf8_decode bs)).

(* ================================================================= *)
(** ** Buffer base64 *)

Definition b64_char (n : Z) : Z :=
  if n <? 26 then 65 + n
  else if n <? 52 then 71 + n
  else if n <? 62 then n - 4
  else if n =? 62 then 43
  else 47.

(** [Buffer.from(bytes)]: a buffer holds octets. *)
Definition Buffer_from (b : bytes) : bytes := map (fun x => x mod 256) b.

(** [buffer.toString("base64")]. *)
Fixpoint base64_encode (bs : bytes) : jsstring :=
  match bs with
  | [] => []
  | [a] => [b64_char (a / 4); b64_char ((a mod 4) * 16); 61; 61]
  | [a; b] =>
      [b64_char (a / 4); b64_char ((a mod 4) * 16 + b / 16);
       b64_char ((b mod 16) * 4); 61]
  | a :: b :: c :: rest =>
      [b64_char (a / 4); b64_char ((a mod 4) * 16 + b / 16);
       b64_char ((b mod 16) * 4 + c / 64); b64_char (c mod 64)]
        ++ base64_encode rest
  end.

(** The value of a base64 character; both alphabets are accepted. *)
Definition unbase64 (c : Z) : option Z :=
  if in_range 65 90 c then Some (c - 65)
  else if in_range 97 122 c then Some (c - 71)
  else if in_range 48 57 c then Some (c + 4)
  else if (c =? 43) || (c =? 45) then Some 62
  else if (c =? 47) || (c =? 95) then Some 63
  else None.

(** The decoder never fails: a character outside the alphabet is skipped
    and decoding stops at the first [=]. *)
Fixpoint sextets (s : jsstring) : list Z :=
  match s with
  | [] => []
  | c :: rest =>
      if c =? 61 then []
      else match unbase64 c with
           | Some v => v :: sextets rest
           | None => sextets rest
           end
  end.

Fixpoint sextets_to_bytes (l : list Z) : bytes :=
  match l with
  | a :: b :: c :: d :: rest =>
      [a * 4 + b / 16; (b mod 16) * 16 + c / 4; (c mod 4) * 64 + d]
        ++ sextets_to_bytes rest
  | [a; b; c] => [a * 4 + b / 16; (b mod 16) * 16 + c / 4]
  | [a; b] => [a * 4 + b / 16]
  | _ => []
  end.

(** [Buffer.from(s, "base64")]. *)
Definition Buffer_from_base64 (s : jsstring) : bytes :=
  sextets_to_bytes (sextets s).

(* ================================================================= *)
(** ** String.prototype.split and replace *)

(** [s.split(sep)] for a separator of one code unit. *)
Fixpoint split (sep : Z) (s : jsstring) : list jsstring :=
  match s with
  | [] => [[]]
  | c :: rest =>
      if c =? sep then [] :: split sep rest
      else match split sep rest with
           | h :: t => (c :: h) :: t
           | [] => [[c]]
           end
  end.

(** [s.replace(/a/g, "b")] for single code units. *)
Definition replace_all (a b : Z) (s : jsstring) : jsstring :=
  map (fun c => if c =? a then b else c) s.

(** [s.replace(/a/g, "")]. *)
Definition remove_all (a : Z) (s : jsstring) : jsstring :=
  filter (fun c => negb (c =? a)) s.

(* ================================================================= *)
(** ** The codec helpers of session.ts *)

Record Env := {
  SESSION_SECRET : option jsstring;   (* process.env.SESSION_SECRET *)
  NODE_ENV : option jsstring          (* process.env.NODE_ENV *)
}.

(** [a || b] on strings: the empty string is falsy. *)
Definition str_or (a : option jsstring) (b : jsstring) : jsstring :=
  match a with
  | Some (c :: s) => c :: s
  | _ => b
  end.

Definition secret (env : Env) : jsstring :=
  str_or (SESSION_SECRET env) (str "dev-secret-change-me").

Inductive b64url_input :=
| OfString (s : jsstring)
| OfBuffer (b : bytes).

Definition b64url (input : b64url_input) : jsstring :=
  let bytes := match input with
               | OfString s => TextEncoder_encode s
               | OfBuffer b => b
               end in
  let str := base64_encode (Buffer_from bytes) in
  replace_all 47 95 (replace_all 43 45 (remove_all 61 str)).

Definition b64urlDecode (input : jsstring) : bytes :=
  let input := replace_all 95 47 (replace_all 45 43 input) in
  let len := Z.of_nat (List.length input) in
  let pad := if len mod 4 =? 0 then 0 else 4 - len mod 4 in
  let normalized := input ++ repeat 61 (Z.to_nat pad) in
  Buffer_from_base64 normalized.

Definition hmac (env : Env) (data : jsstring) : bytes :=
  hmac_sha256 (TextEncoder_encode (secret env)) (TextEncoder_encode data).

(* ================================================================= *)
(** ** JavaScript values that JSON can carry *)

(** [JNum m e] is the number [m * 10^e].  The canonical form has [e <= 0]
    and, when [e < 0], a mantissa that is not a multiple of ten; an integer
    [z] is [JNum z 0].  [undefined] is [None] in [option json]. *)
#[warnings="-register-all"]
Inductive json :=
| JNull
| JBool (b : bool)
| JNum (m e : Z)
| JStr (s : jsstring)
| JArr (l : list json)
| JObj (props : list (jsstring * json)).

Definition pow10 (n : Z) : Z := 10 ^ n.

(** Canonical form of [m * 10^e]. *)
Fixpoint strip_zeros (fuel : nat) (m e : Z) : Z * Z :=
  match fuel with
  | O => (m, e)
  | S f =>
      if (e <? 0) && (m mod 10 =? 0) then strip_zeros f (m / 10) (e + 1)
      else (m, e)
  end.

Definition canonical (m e : Z) : Z * Z :=
  if m =? 0 then (0, 0)
  else if 0 <=? e then (m * pow10 e, 0)
  else strip_zeros (S (Z.to_nat (Z.log2 (Z.abs m)))) m e.

(** *** Property keys and their order *)

Fixpoint all_digits (s : jsstring) : bool :=
  match s with
  | [] => true
  | c :: r => in_range 48 57 c && all_digits r
  end.

Fixpoint digits_value (s : jsstring) (acc : Z) : Z :=
  match s with
  | [] => acc
  | c :: r => digits_value r (acc * 10 + (c - 48))
  end.

(** An array index is a canonical numeric string below 2^32 - 1. *)
Definition array_index (k : jsstring) : option Z :=
  match k with
  | [] => None
  | c :: r =>
      if all_digits k && (negb (c =? 48) || match r with [] => true | _ => false end)
         && (Z.of_nat (List.length k) <=? 10)
      then let v := digits_value k 0 in
           if v <? 4294967295 then Some v else None
      else None
  end.

Fixpoint assoc (k : jsstring) (props : list (jsstring * json)) : option json :=
  match props with
  | [] => None
  | (k', v) :: r => if str_eqb k k' then Some v else assoc k r
  end.

Fixpoint replace_prop (k : jsstring) (v : json) (props : list (jsstring * json))
  : list (jsstring * json) :=
  match props with
  | [] => []
  | (k', v') :: r =>
      if str_eqb k k' then (k', v) :: r else (k', v') :: replace_prop k v r
  end.

(** A new index key goes before the first key that is not an index or is a
    larger index. *)
Fixpoint insert_index (i : Z) (k : jsstring) (v : json)
  (props : list (jsstring * json)) : list (jsstring * json) :=
  match props with
  | [] => [(k, v)]
  | (k', v') :: r =>
      match array_index k' with
      | Some j => if j <? i then (k', v') :: insert_index i k v r
                  else (k, v) :: props
      | None => (k, v) :: props
      end
  end.

(** CreateDataProperty on an ordinary object: an existing key keeps its
    place; index keys come first, in ascending order; other keys follow in
    the order of their creation. *)
Definition obj_set (k : jsstring) (v : json) (props : list (jsstring * json))
  : list (jsstring * json) :=
  match assoc k props with
  | Some _ => replace_prop k v props
  | None =>
      match array_index k with
      | Some i => insert_index i k v props
      | None => props ++ [(k, v)]
      end
  end.

Definition build_object (members : list (jsstring * json)) : list (jsstring * json) :=
  fold_left (fun o kv => obj_set (fst kv) (snd kv) o) members [].

(* ================================================================= *)
(** ** JSON.stringify *)

Fixpoint digits_fuel (fuel : nat) (n : Z) (acc : jsstring) : jsstring :=
  match fuel with
  | O => acc
  | S f =>
      if n <? 10 then (48 + n) :: acc
      else digits_fuel f (n / 10) ((48 + n mod 10) :: acc)
  end.

(** The decimal digits of a natural number. *)
Definition digits (n : Z) : jsstring :=
  digits_fuel (S (Z.to_nat (Z.log2 n))) n [].

Fixpoint drop_zeros (s : jsstring) : jsstring :=
  match s with
  | c :: r => if c =? 48 then drop_zeros r else s
  | [] => []
  end.

Definition strip_trailing_zeros (s : jsstring) : jsstring :=
  rev (drop_zeros (rev s)).

(** Number::toString (radix 10) on an exact decimal. *)
Definition Number_toString (m e : Z) : jsstring :=
  if m =? 0 then [48]
  else
    let ds := digits (Z.abs m) in
    let s := strip_trailing_zeros ds in
    let k := Z.of_nat (List.length s) in
    let n := Z.of_nat (List.length ds) + e in
    (if m <? 0 then [45] else []) ++
    (if (k <=? n) && (n <=? 21) then s ++ repeat 48 (Z.to_nat (n - k))
     else if (0 <? n) && (n <=? 21)
          then firstn (Z.to_nat n) s ++ [46] ++ skipn (Z.to_nat n) s
     else if (-6 <? n) && (n <=? 0)
          then [48; 46] ++ repeat 48 (Z.to_nat (- n)) ++ s
     else
       let ex := n - 1 in
       let exs := (if ex <? 0 then [45] else [43]) ++ digits (Z.abs ex) in
       match s with
       | [] => []
       | [d] => d :: 101 :: exs
       | d :: rest => d :: 46 :: rest ++ 101 :: exs
       end).

Definition hex_digit (n : Z) : Z := if n <? 10 then 48 + n else 87 + n.

(** [\uXXXX] with lower-case digits. *)
Definition unicode_escape (c : Z) : jsstring :=
  [92; 117; hex_digit (c / 4096); hex_digit ((c / 256) mod 16);
   hex_digit ((c / 16) mod 16); hex_digit (c mod 16)].

Definition quote_unit (c : Z) : jsstring :=
  if c =? 8 then [92; 98]
  else if c =? 9 then [92; 116]
  else if c =? 10 then [92; 110]
  else if c =? 12 then [92; 102]
  else if c =? 13 then [92; 114]
  else if c =? 34 then [92; 34]
  else if c =? 92 then [92; 92]
  else if c <? 32 then unicode_escape c
  else [c].

(** The characters of QuoteJSONString between the quotes: a surrogate pair
    is copied, a lone surrogate is escaped. *)
Fixpoint quote_chars (s : jsstring) : jsstring :=
  match s with
  | [] => []
  | c :: rest =>
      if is_high_surrogate c then
        match rest with
        | l :: rest' =>
            if is_low_surrogate l then c :: l :: quote_chars rest'
            else unicode_escape c ++ quote_chars rest
        | [] => unicode_escape c
        end
      else if is_low_surrogate c then unicode_escape c ++ quote_chars rest
      else quote_unit c ++ quote_chars rest
  end.

Definition QuoteJSONString (s : jsstring) : jsstring :=
  [34] ++ quote_chars s ++ [34].

Section join.
Context {A : Type} (f : A -> jsstring).

(** The serialized items, separated by commas. *)
Fixpoint join_commas (l : list A) : jsstring :=
  match l with
  | [] => []
  | x :: r => f x ++ match r with [] => [] | _ => 44 :: join_commas r end
  end.

End join.

(** [JSON.stringify(v)], without indentation. *)
Fixpoint JSON_stringify (v : json) : jsstring :=
  match v with
  | JNull => str "null"
  | JBool true => str "true"
  | JBool false => str "false"
  | JNum m e => Number_toString m e
  | JStr s => QuoteJSONString s
  | JArr l => [91] ++ join_commas JSON_stringify l ++ [93]
  | JObj props =>
      [123] ++
      join_commas (fun kv => QuoteJSONString (fst kv) ++ [58] ++ JSON_stringify (snd kv))
        props ++ [125]
  end.

(* ================================================================= *)
(** ** JSON.parse *)

Definition is_ws (c : Z) : bool :=
  (c =? 32) || (c =? 9) || (c =? 10) || (c =? 13).

Fixpoint skip_ws (s : jsstring) : jsstring :=
  match s with
  | c :: r => if is_ws c then skip_ws r else s
  | [] => []
  end.

Definition unhex (c : Z) : option Z :=
  if in_range 48 57 c then Some (c - 48)
  else if in_range 97 102 c then Some (c - 87)
  else if in_range 65 70 c then Some (c - 55)
  else None.

Definition unhex4 (a b c d : Z) : option Z :=
  match unhex a, unhex b, unhex c, unhex d with
  | Some a, Some b, Some c, Some d => Some (a * 4096 + b * 256 + c * 16 + d)
  | _, _, _, _ => None
  end.

Definition unescape (c : Z) : option Z :=
  if c =? 34 then Some 34
  else if c =? 92 then Some 92
  else if c =? 47 then Some 47
  else if c =? 98 then Some 8
  else if c =? 102 then Some 12
  else if c =? 110 then Some 10
  else if c =? 114 then Some 13
  else if c =? 116 then Some 9
  else None.

(** The characters of a string literal after its opening quote, up to and
    including the closing quote. *)
Fixpoint parse_string_body (s : jsstring) : option (jsstring * jsstring) :=
  match s with
  | [] => None
  | c :: r =>
      if c =? 34 then Some ([], r)
      else if c =? 92 then
        match r with
        | [] => None
        | x :: r1 =>
            if x =? 117 then
              match r1 with
              | h1 :: h2 :: h3 :: h4 :: r2 =>
                  match unhex4 h1 h2 h3 h4 with
                  | Some u =>
                      match parse_string_body r2 with
                      | Some (t, rest) => Some (u :: t, rest)
                      | None => None
                      end
                  | None => None
                  end
              | _ => None
              end
            else
              match unescape x with
              | Some u =>
                  match parse_string_body r1 with
                  | Some (t, rest) => Some (u :: t, rest)
                  | None => None
                  end
              | None => None
              end
        end
      else if c <? 32 then None
      else
        match parse_string_body r with
        | Some (t, rest) => Some (c :: t, rest)
        | None => None
        end
  end.

(** Reads decimal digits: their value on top of [acc], how many were read,
    and the rest. *)
Fixpoint read_digits (s : jsstring) (acc : Z) (count : Z) : Z * Z * jsstring :=
  match s with
  | c :: r =>
      if in_range 48 57 c then read_digits r (acc * 10 + (c - 48)) (count + 1)
      else (acc, count, s)
  | [] => (acc, count, [])
  end.

Definition parse_exponent (s : jsstring) : option (Z * jsstring) :=
  match s with
  | c :: r =>
      if (c =? 101) || (c =? 69) then
        let '(neg, r1) :=
          match r with
          | x :: r' => if x =? 45 then (true, r')
                       else if x =? 43 then (false, r') else (false, r)
          | [] => (false, r)
          end in
        let '(v, n, r2) := read_digits r1 0 0 in
        if n =? 0 then None else Some (if neg then - v else v, r2)
      else Some (0, s)
  | [] => Some (0, s)
  end.

Definition parse_fraction (s : jsstring) (int : Z) : option (Z * Z * jsstring) :=
  match s with
  | c :: r =>
      if c =? 46 then
        let '(v, n, r1) := read_digits r int 0 in
        if n =? 0 then None else Some (v, - n, r1)
      else Some (int, 0, s)
  | [] => Some (int, 0, s)
  end.

(** number = [-] int [frac] [exp], with no leading zero in int. *)
Definition parse_number (s : jsstring) : option (json * jsstring) :=
  let '(neg, s1) :=
    match s with
    | c :: r => if c =? 45 then (true, r) else (false, s)
    | [] => (false, s)
    end in
  match s1 with
  | [] => None
  | d :: r =>
      if in_range 48 57 d then
        let '(int, _, r1) :=
          if d =? 48 then (0, 1, r) else read_digits s1 0 0 in
        match parse_fraction r1 int with
        | None => None
        | Some (mant, e1, r2) =>
            match parse_exponent r2 with
            | None => None
            | Some (e2, r3) =>
                let '(m, e) := canonical (if neg then - mant else mant) (e1 + e2) in
                Some (JNum m e, r3)
            end
        end
      else None
  end.

Fixpoint starts_with (lit s : jsstring) : option jsstring :=
  match lit, s with
  | [], _ => Some s
  | a :: lit', b :: s' => if a =? b then starts_with lit' s' else None
  | _ :: _, [] => None
  end.

Definition parse_literal (lit : jsstring) (v : json) (s : jsstring)
  : option (json * jsstring) :=
  match starts_with lit s with
  | Some rest => Some (v, rest)
  | None => None
  end.

(** A JSON value, with the white space before it. *)
Fixpoint parse_value (fuel : nat) (s : jsstring) {struct fuel}
  : option (json * jsstring) :=
  match fuel with
  | O => None
  | S f =>
      match skip_ws s with
      | [] => None
      | c :: r =>
          if c =? 123 then
            match skip_ws r with
            | c1 :: r1 =>
                if c1 =? 125 then Some (JObj [], r1)
                else match parse_members f (c1 :: r1) with
                     | Some (ms, rest) => Some (JObj (build_object ms), rest)
                     | None => None
                     end
            | [] => None
            end
          else if c =? 91 then
            match skip_ws r with
            | c1 :: r1 =>
                if c1 =? 93 then Some (JArr [], r1)
                else match parse_elements f (c1 :: r1) with
                     | Some (l, rest) => Some (JArr l, rest)
                     | None => None
                     end
            | [] => None
            end
          else if c =? 34 then
            match parse_string_body r with
            | Some (x, rest) => Some (JStr x, rest)
            | None => None
            end
          else if c =? 116 then parse_literal (str "true") (JBool true) (c :: r)
          else if c =? 102 then parse_literal (str "false") (JBool false) (c :: r)
          else if c =? 110 then parse_literal (str "null") JNull (c :: r)
          else parse_number (c :: r)
      end
  end

(** value { "," value } "]" *)
with parse_elements (fuel : nat) (s : jsstring) {struct fuel}
  : option (list json * jsstring) :=
  match fuel with
  | O => None
  | S f =>
      match parse_value f s with
      | None => None
      | Some (v, r1) =>
          match skip_ws r1 with
          | [] => None
          | c :: r2 =>
              if c =? 93 then Some ([v], r2)
              else if c =? 44 then
                match parse_elements f r2 with
                | Some (l, rest) => Some (v :: l, rest)
                | None => None
                end
              else None
          end
      end
  end

(** string ":" value { "," string ":" value } "}" *)
with parse_members (fuel : nat) (s : jsstring) {struct fuel}
  : option (list (jsstring * json) * jsstring) :=
  match fuel with
  | O => None
  | S f =>
      match skip_ws s with
      | [] => None
      | q :: r =>
          if q =? 34 then
            match parse_string_body r with
            | None => None
            | Some (k, r1) =>
                match skip_ws r1 with
                | [] => None
                | c :: r2 =>
                    if c =? 58 then
                      match parse_value f r2 with
                      | None => None
                      | Some (v, r3) =>
                          match skip_ws r3 with
                          | [] => None
                          | d :: r4 =>
                              if d =? 125 then Some ([(k, v)], r4)
                              else if d =? 44 then
                                match parse_members f r4 with
                                | Some (ms, rest) => Some ((k, v) :: ms, rest)
                                | None => None
                                end
                              else None
                          end
                      end
                    else None
                end
            end
          else None
      end
  end.

(** [JSON.parse(text)]; [None] is the SyntaxError it throws. *)
Definition JSON_parse (text : jsstring) : option json :=
  match parse_value (2 * List.length text + 2) text with
  | Some (v, rest) =>
      match skip_ws rest with
      | [] => Some v
      | _ => None
      end
  | None => None
  end.

(* ================================================================= *)
(** ** The operators the source applies to a decoded payload *)

(** ToBoolean. *)
Definition truthy (v : json) : bool :=
  match v with
  | JNull => false
  | JBool b => b
  | JNum m _ => negb (m =? 0)
  | JStr [] => false
  | _ => true
  end.

Fixpoint index_keys (i : Z) (l : list json) : list (jsstring * json) :=
  match l with
  | [] => []
  | x :: r => (digits i, x) :: index_keys (i + 1) r
  end.

(** The own enumerable properties that an object spread copies. *)
Definition own_enumerable (v : json) : list (jsstring * json) :=
  match v with
  | JObj props => props
  | JArr l => index_keys 0 l
  | JStr s => index_keys 0 (map (fun c => JStr [c]) s)
  | _ => []
  end.

(** [v.k] for a value that is neither null nor undefined and a key that no
    prototype defines (the source reads [user], [expires] and [name]). *)
Definition member (v : json) (k : jsstring) : option json :=
  if str_eqb k (str "length") then
    match v with
    | JArr l => Some (JNum (Z.of_nat (List.length l)) 0)
    | JStr s => Some (JNum (Z.of_nat (List.length s)) 0)
    | _ => assoc k (own_enumerable v)
    end
  else assoc k (own_enumerable v).

(** [v?.k]. *)
Definition opt_member (v : option json) (k : jsstring) : option json :=
  match v with
  | None | Some JNull => None
  | Some x => member x k
  end.

Definition truthy_opt (v : option json) : bool :=
  match v with
  | None => false
  | Some x => truthy x
  end.

(** [{ ...v }]. *)
Definition spread (v : json) : list (jsstring * json) :=
  build_object (own_enumerable v).

Inductive number :=
| Num (m e : Z)
| NaN.

(** ToNumber; [None] where the operand is a string, an array or an object,
    whose conversion is outside the modelled fragment. *)
Definition ToNumber (v : option json) : option number :=
  match v with
  | None => Some NaN
  | Some JNull => Some (Num 0 0)
  | Some (JBool b) => Some (Num (if b then 1 else 0) 0)
  | Some (JNum m e) => Some (Num m e)
  | Some _ => None
  end.

Definition align (m1 e1 m2 e2 : Z) : Z * Z * Z :=
  let e := Z.min e1 e2 in
  (m1 * pow10 (e1 - e), m2 * pow10 (e2 - e), e).

(** [a - b]. *)
Definition num_sub (a b : number) : number :=
  match a, b with
  | Num m1 e1, Num m2 e2 =>
      let '(x, y, e) := align m1 e1 m2 e2 in
      let '(m, e') := canonical (x - y) e in Num m e'
  | _, _ => NaN
  end.

(** [a < b]; a comparison with NaN is false. *)
Definition num_ltb (a b : number) : bool :=
  match a, b with
  | Num m1 e1, Num m2 e2 =>
      let '(x, y, _) := align m1 e1 m2 e2 in x <? y
  | _, _ => false
  end.

(* ================================================================= *)
(** ** session.ts: encrypt and decrypt *)

Record UserRef := { name : jsstring }.

Record SessionPayload := {
  user : option UserRef;
  expires : Z                        (* ms epoch *)
}.

(** The object a [SessionPayload] is at run time. *)
Definition user_value (u : option UserRef) : json :=
  match u with
  | None => JNull
  | Some r => JObj [(str "name", JStr (name r))]
  end.

Definition payload_value (p : SessionPayload) : json :=
  JObj [(str "user", user_value (user p)); (str "expires", JNum (expires p) 0)].

Definition dot : jsstring := [46].

Definition encrypt (env : Env) (payload : json) : jsstring :=
  let header := JObj [(str "alg", JStr (str "HS256")); (str "typ", JStr (str "JWT"))] in
  let encHeader := b64url (OfString (JSON_stringify header)) in
  let encPayload := b64url (OfString (JSON_stringify payload)) in
  let toSign := encHeader ++ dot ++ encPayload in
  let sig := hmac env toSign in
  let encSig := b64url (OfBuffer sig) in
  encHeader ++ dot ++ encPayload ++ dot ++ encSig.

(** [JNull] is the [null] the source returns, from either [return null] or
    the [catch]; a payload that parses to [null] is returned as it is. *)
Definition decrypt (env : Env) (token : jsstring) : json :=
  match split 46 token with
  | [encHeader; encPayload; encSig] =>
      let toSign := encHeader ++ dot ++ encPayload in
      let expected := hmac env toSign in
      let expectedStr := b64url (OfBuffer expected) in
      if negb (str_eqb expectedStr encSig) then JNull
      else
        let payloadBytes := b64urlDecode encPayload in
        match JSON_parse (TextDecoder_decode payloadBytes) with
        | Some payload => payload
        | None => JNull
        end
  | _ => JNull
  end.

(* ================================================================= *)
(** ** Cookies *)

Record CookieOptions := {
  httpOnly : bool;
  path : jsstring;
  sameSite : jsstring;
  secure : bool;
  maxAge : Z                         (* seconds *)
}.

Record Cookie := {
  cookie_name : jsstring;
  value : jsstring;
  options : option CookieOptions     (* [None] for a cookie the request carried *)
}.

Definition cookie_store := list Cookie.

Fixpoint cookies_get (name : jsstring) (store : cookie_store) : option Cookie :=
  match store with
  | [] => None
  | c :: r => if str_eqb name (cookie_name c) then Some c else cookies_get name r
  end.

Definition cookies_delete (name : jsstring) (store : cookie_store) : cookie_store :=
  filter (fun c => negb (str_eqb name (cookie_name c))) store.

Definition cookies_set (name v : jsstring) (o : CookieOptions) (store : cookie_store)
  : cookie_store :=
  cookies_delete name store ++ [{| cookie_name := name; value := v; options := Some o |}].

(** [store.get(name)?.value]. *)
Definition cookie_value (name : jsstring) (store : cookie_store) : option jsstring :=
  option_map value (cookies_get name store).

Definition is_production (env : Env) : bool :=
  match NODE_ENV env with
  | Some s => str_eqb s (str "production")
  | None => false
  end.

(* ================================================================= *)
(** ** Outcomes of the lifecycle functions *)

Inductive exn :=
| Error (message : jsstring)         (* throw new Error(message) *)
| Redirect (target : jsstring).      (* redirect(target) *)

(** [Unmodelled]: the run leaves the modelled fragment (see [ToNumber]). *)
Inductive outcome (A : Type) :=
| Returns (a : A)
| Throws (e : exn)
| Unmodelled.
Arguments Returns {A} a.
Arguments Throws {A} e.
Arguments Unmodelled {A}.

(** A server action: it reads and writes the cookie store. *)
Definition action (A : Type) := cookie_store -> outcome A * cookie_store.

Definition ret {A} (a : A) : action A := fun st => (Returns a, st).
Definition throw {A} (e : exn) : action A := fun st => (Throws e, st).
Definition bind {A B} (m : action A) (k : A -> action B) : action B :=
  fun st =>
    match m st with
    | (Returns a, st') => k a st'
    | (Throws e, st') => (Throws e, st')
    | (Unmodelled, st') => (Unmodelled, st')
    end.
Definition read {A} (f : cookie_store -> outcome A) : action A :=
  fun st => (f st, st).
Definition write (f : cookie_store -> cookie_store) : action unit :=
  fun st => (Returns tt, f st).

Notation "x <- m ;; k" := (bind m (fun x => k))
  (at level 61, m at next level, right associativity).
Notation "m ;;; k" := (bind m (fun _ => k))
  (at level 61, right associativity).

(* ================================================================= *)
(** ** session.ts: the lifecycle *)

Definition SESSION_COOKIE : jsstring := str "session".

Definition shortExpiry (now msFromNow : Z) : Z := now + msFromNow.

(** [now] is the value of [Date.now()] on line 78. *)
Definition getSession (env : Env) (now : Z) (cookieStore : cookie_store)
  : outcome json :=
  match cookie_value SESSION_COOKIE cookieStore with
  | None | Some [] => Returns JNull
  | Some token =>
      let payload := decrypt env token in
      if negb (truthy payload) then Returns JNull
      else
        match ToNumber (member payload (str "expires")) with
        | None => Unmodelled
        | Some exp =>
            if num_ltb exp (Num now 0) then Returns JNull else Returns payload
        end
  end.

Record NextRequest := { req_cookies : cookie_store }.
Record NextResponse := { res_cookies : cookie_store }.

Definition NextResponse_next : NextResponse := {| res_cookies := [] |}.

Definition session_options (env : Env) : CookieOptions :=
  {| httpOnly := true; path := str "/"; sameSite := str "lax";
     secure := is_production env; maxAge := 10 * 60 |}.

(** [now1] is [Date.now()] on line 88, [now2] the one [shortExpiry] reads on
    line 92.  [None] is the [undefined] of a bare [return]. *)
Definition updateSession (env : Env) (req : NextRequest) (now1 now2 : Z)
  : outcome (option NextResponse) :=
  match cookie_value SESSION_COOKIE (req_cookies req) with
  | None | Some [] => Returns None
  | Some token =>
      let payload := decrypt env token in
      if negb (truthy payload) then Returns None
      else
        match ToNumber (member payload (str "expires")) with
        | None => Unmodelled
        | Some exp =>
            let remaining := num_sub exp (Num now1 0) in
            if num_ltb remaining (Num (2 * 60 * 1000) 0) then
              let refreshed :=
                JObj (obj_set (str "expires")
                        (JNum (shortExpiry now2 (10 * 60 * 1000)) 0)
                        (spread payload)) in
              let newToken := encrypt env refreshed in
              let res := NextResponse_next in
              Returns (Some {| res_cookies :=
                cookies_set SESSION_COOKIE newToken (session_options env)
                  (res_cookies res) |})
            else Returns None
        end
  end.


(** The string-valued fields of a submitted form. *)
Definition FormData := list (jsstring * jsstring).

Fixpoint formData_get (k : jsstring) (fd : FormData) : option jsstring :=
  match fd with
  | [] => None
  | (k', v) :: r => if str_eqb k k' then Some v else formData_get k r
  end.

Definition login (env : Env) (formData : FormData) (now : Z) : action unit :=
  let username := str_or (formData_get (str "username") formData) [] in
  let password := str_or (formData_get (str "password") formData) [] in
  if negb (str_eqb username (str "admin")) || negb (str_eqb password (str "password"))
  then throw (Error (str "Invalid credentials"))
  else
    let payload :=
      JObj [(str "user", JObj [(str "name", JStr (str "Admin"))]);
            (str "expires", JNum (shortExpiry now (10 * 60 * 1000)) 0)] in
    let token := encrypt env payload in
    write (cookies_set SESSION_COOKIE token
             {| httpOnly := true; sameSite := str "lax";
                secure := is_production env; path := str "/";
                maxAge := 10 * 60 |}).

Definition logout : action unit := write (cookies_delete SESSION_COOKIE).

(* ================================================================= *)
(** ** app/protected/page.tsx *)

Definition json_strings (l : list json) : list jsstring :=
  flat_map (fun x => match x with JStr s => [s] | _ => [] end) l.

(** The flash list read from the raw cookie value, as both [ProtectedPage]
    and [saveAction] read it. *)
Definition flash_list (raw : option jsstring) : list jsstring :=
  match raw with
  | None | Some [] => []
  | Some text =>
      match JSON_parse text with
      | Some (JArr l) => json_strings l
      | Some (JStr s) => [s]
      | Some _ => []
      | None => [text]
      end
  end.

(** [list.slice(-n)]. *)
Definition slice_last {A} (n : nat) (l : list A) : list A :=
  skipn (List.length l - n) l.

(** [list.push(entry)] and the cap. *)
Definition flash_append (l : list jsstring) (entry : jsstring) : list jsstring :=
  let l := l ++ [entry] in
  if (10 <? List.length l)%nat then slice_last 10 l else l.

Definition flash_options (env : Env) : CookieOptions :=
  {| httpOnly := false; path := str "/"; maxAge := 60; sameSite := str "lax";
     secure := is_production env |}.

Record page := {
  hello : option json;               (* session.user?.name *)
  items : list jsstring
}.

Definition ProtectedPage (env : Env) (now : Z) (cookieStore : cookie_store)
  : outcome page :=
  match getSession env now cookieStore with
  | Returns session =>
      if negb (truthy_opt (opt_member (Some session) (str "user")))
      then Throws (Redirect (str "/"))
      else
        let flashRaw := cookie_value (str "flash") cookieStore in
        Returns {| hello := opt_member (member session (str "user")) (str "name");
                   items := flash_list flashRaw |}
  | Throws e => Throws e
  | Unmodelled => Unmodelled
  end.

(** [now] is the clock [getSession] reads; [time] is
    [new Date().toLocaleTimeString()]. *)
Definition saveAction (env : Env) (now : Z) (time : jsstring) : action unit :=
  session <- read (getSession env now) ;;
  if negb (truthy_opt (opt_member (Some session) (str "user")))
  then throw (Redirect (str "/"))
  else
    existing <- read (fun st => Returns (cookie_value (str "flash") st)) ;;
    let l := flash_list existing in
    let entry := str "Saved at " ++ time in
    let l := flash_append l entry in
    write (cookies_set (str "flash") (JSON_stringify (JArr (map JStr l)))
             (flash_options env)) ;;;
    throw (Redirect (str "/protected")).


(* ================================================================= *)
(** ** app/page.tsx *)

(** [store.get(name)?.value || null]. *)
Definition cookie_or_null (name : jsstring) (store : cookie_store)
  : option jsstring :=
  match cookie_value name store with
  | Some (c :: s) => Some (c :: s)
  | _ => None
  end.

(** What the public page shows: the session, one of the two forms, and the
    raw flash cookie when there is one. *)
Record home := {
  session_shown : json;              (* JSON.stringify(session, null, 2) *)
  login_form : bool;                 (* !session?.user *)
  flash_shown : option jsstring
}.

Definition Home (env : Env) (now : Z) (cookieStore : cookie_store)
  : outcome home :=
  match getSession env now cookieStore with
  | Returns session =>
      let flash := cookie_or_null (str "flash") cookieStore in
      Returns {| session_shown := session;
                 login_form := negb (truthy_opt (opt_member (Some session) (str "user")));
                 flash_shown := flash |}
  | Throws e => Throws e
  | Unmodelled => Unmodelled
  end.

Definition loginAction (env : Env) (formData : FormData) (now : Z) : action unit :=
  login env formData now ;;;
  throw (Redirect (str "/")).

Definition logoutAction : action unit :=
  logout ;;;
  throw (Redirect (str "/")).

(* ================================================================= *)
(** ** app/protected/page.tsx, the variant with a single flash message *)

Record page_v1 := {
  hello_v1 : option json;            (* session.user?.name *)
  flash_v1 : option jsstring
}.

Definition ProtectedPage_v1 (env : Env) (now : Z) (cookieStore : cookie_store)
  : outcome page_v1 :=
  match getSession env now cookieStore with
  | Returns session =>
      if negb (truthy_opt (opt_member (Some session) (str "user")))
      then Throws (Redirect (str "/"))
      else
        let flash := cookie_or_null (str "flash") cookieStore in
        Returns {| hello_v1 := opt_member (member session (str "user")) (str "name");
                   flash_v1 := flash |}
  | Throws e => Throws e
  | Unmodelled => Unmodelled
  end.

Definition flash_options_v1 (env : Env) : CookieOptions :=
  {| httpOnly := false; path := str "/"; maxAge := 15; sameSite := str "lax";
     secure := is_production env |}.

Definition saveAction_v1 (env : Env) (now : Z) (time : jsstring) : action unit :=
  session <- read (getSession env now) ;;
  if negb (truthy_opt (opt_member (Some session) (str "user")))
  then throw (Redirect (str "/"))
  else
    write (cookies_set (str "flash") (str "Saved at " ++ time)
             (flash_options_v1 env)) ;;;
    throw (Redirect (str "/protected")).
(* ================================================================= *)
(** ** Predicates and functions used to state the properties *)

Definition no_dot (s : jsstring) : Prop := Forall (fun c => c <> 46) s.

(** Joining the parts with dots gives the string back. *)
Fixpoint join_dots (parts : list jsstring) : jsstring :=
  match parts with
  | [] => []
  | [p] => p
  | p :: rest => p ++ dot ++ join_dots rest
  end.


Definition is_sextet (n : Z) : Prop := 0 <= n < 64.

(** The six-bit groups of a byte sequence. *)
Fixpoint enc_sextets (bs : bytes) : list Z :=
  match bs with
  | [] => []
  | [a] => [a / 4; (a mod 4) * 16]
  | [a; b] => [a / 4; (a mod 4) * 16 + b / 16; (b mod 16) * 4]
  | a :: b :: c :: rest =>
      [a / 4; (a mod 4) * 16 + b / 16; (b mod 16) * 4 + c / 64; c mod 64]
        ++ enc_sextets rest
  end.

(** The URL-safe character of a six-bit group. *)
Definition b64url_char (n : Z) : Z :=
  let c := b64_char n in
  let c := if c =? 43 then 45 else c in
  if c =? 47 then 95 else c.

Definition url_char (c : Z) : bool :=
  in_range 65 90 c || in_range 97 122 c || in_range 48 57 c
  || (c =? 45) || (c =? 95).

(** Well-formed UTF-16: code units in range and every surrogate paired. *)
Inductive well_formed : jsstring -> Prop :=
| wf_nil : well_formed []
| wf_unit c s :
    is_code_unit c -> is_high_surrogate c = false -> is_low_surrogate c = false ->
    well_formed s -> well_formed (c :: s)
| wf_pair h l s :
    is_high_surrogate h = true -> is_low_surrogate l = true ->
    well_formed s -> well_formed (h :: l :: s).

Definition is_ascii (c : Z) : Prop := 0 <= c < 128.

(** [P] holds on [count] consecutive integers from [start]. *)
Fixpoint forall_from (P : Z -> bool) (start : Z) (count : nat) : bool :=
  match count with
  | O => true
  | S c => P start && forall_from P (start + 1) c
  end.

(** What may follow a value inside a JSON text: nothing, a comma or a
    closing bracket. *)
Definition terminated (rest : jsstring) : Prop :=
  match rest with
  | [] => True
  | c :: _ => c = 44 \/ c = 93 \/ c = 125
  end.

Definition is_digit (c : Z) : Prop := 48 <= c <= 57.

(** The values on which [JSON.parse] undoes [JSON.stringify] in the model:
    code units in range, integers below 10^21 (written without an
    exponent), and objects whose keys stand in the order the engine keeps. *)
#[warnings="-register-all"]
Inductive json_ok : json -> Prop :=
| ok_null : json_ok JNull
| ok_bool b : json_ok (JBool b)
| ok_num z : Z.abs z < 10 ^ 21 -> json_ok (JNum z 0)
| ok_str s : Forall is_code_unit s -> json_ok (JStr s)
| ok_arr l : Forall json_ok l -> json_ok (JArr l)
| ok_obj props :
    Forall (fun kv => Forall is_code_unit (fst kv)) props ->
    Forall json_ok (map snd props) ->
    build_object props = props ->
    json_ok (JObj props).

(** Fuel that [parse_value] needs for the text of a value. *)
Fixpoint weight (v : json) : nat :=
  match v with
  | JArr l => S (List.length l + list_max (map weight l))
  | JObj props => S (List.length props + list_max (map (fun kv => weight (snd kv)) props))
  | _ => 1
  end.

(** The first character of a value's text. *)
Definition value_start (c : Z) : Prop :=
  c = 110 \/ c = 116 \/ c = 102 \/ c = 34 \/ c = 91 \/ c = 123 \/ c = 45
  \/ 48 <= c <= 57.

(** The parser reads the text of [v] back, whatever follows it. *)
Definition parses_back (v : json) : Prop :=
  forall fuel rest, (weight v <= fuel)%nat -> terminated rest ->
  parse_value fuel (JSON_stringify v ++ rest) = Some (v, rest).

(** The text of one member of an object. *)
Definition member_text (kv : jsstring * json) : jsstring :=
  QuoteJSONString (fst kv) ++ [58] ++ JSON_stringify (snd kv).

(** An integer that a JavaScript number holds exactly
    ([Number.isSafeInteger]). *)
Definition is_safe_integer (z : Z) : Prop := Z.abs z <= 9007199254740991.

(** A [SessionPayload] of the declared type: a name made of code units and
    a timestamp that is a safe integer. *)
Definition valid_payload (p : SessionPayload) : Prop :=
  match user p with
  | Some u => Forall is_code_unit (name u)
  | None => True
  end /\ is_safe_integer (expires p).

(** A value of [Date.now()]: a time value in the range of [Date]. *)
Definition is_time (t : Z) : Prop := 0 <= t <= 8640000000000000.

(** The token with the code unit at position [i] of [s] replaced by [c]. *)
Fixpoint set_nth (i : nat) (c : Z) (s : jsstring) : jsstring :=
  match s, i with
  | [], _ => []
  | _ :: r, O => c :: r
  | x :: r, S j => x :: set_nth j c r
  end.

(** The first two segments of the token [encrypt] returns, and the third. *)
Definition signed_part (env : Env) (payload : json) : jsstring :=
  b64url (OfString (JSON_stringify
            (JObj [(str "alg", JStr (str "HS256")); (str "typ", JStr (str "JWT"))])))
    ++ dot ++ b64url (OfString (JSON_stringify payload)).

Definition signature (env : Env) (payload : json) : jsstring :=
  b64url (OfBuffer (hmac env (signed_part env payload))).

(** The environment of a development run: no variable is set. *)
Definition dev : Env := {| SESSION_SECRET := None; NODE_ENV := None |}.

(** The payload [updateSession] signs when it refreshes [p] at the clock
    value [now]. *)
Definition refreshed_payload (p : SessionPayload) (now : Z) : SessionPayload :=
  {| user := user p; expires := shortExpiry now (10 * 60 * 1000) |}.

(** The response that carries the refreshed token. *)
Definition refreshed_response (env : Env) (p : SessionPayload) (now : Z)
  : NextResponse :=
  {| res_cookies :=
       [{| cookie_name := SESSION_COOKIE;
           value := encrypt env (payload_value (refreshed_payload p now));
           options := Some (session_options env) |}] |}.

(** The credentials [login] reads from the form. *)
Definition username (fd : FormData) : jsstring :=
  str_or (formData_get (str "username") fd) [].
Definition password (fd : FormData) : jsstring :=
  str_or (formData_get (str "password") fd) [].

(** The payload [login] signs at the clock value [now]. *)
Definition login_payload (now : Z) : SessionPayload :=
  {| user := Some {| name := str "Admin" |};
     expires := shortExpiry now (10 * 60 * 1000) |}.

(** The entry [saveAction] appends when the time of day reads [time]. *)
Definition flash_entry (time : jsstring) : jsstring := str "Saved at " ++ time.

(** The cookie store after one [saveAction] per step, each with its clock
    value and its time of day; the store of a request is the store the
    previous response left. *)
Fixpoint save_all (env : Env) (steps : list (Z * jsstring)) (store : cookie_store)
  : cookie_store :=
  match steps with
  | [] => store
  | (now, time) :: rest => save_all env rest (snd (saveAction env now time store))
  end.

(** The text of a flash list, as [saveAction] writes it. *)
Definition flash_text (l : list jsstring) : jsstring :=
  JSON_stringify (JArr (map JStr l)).

(** ** Concrete inputs *)

(** The payload [login] makes at the clock value 1762093860000. *)
Definition admin_payload : SessionPayload :=
  {| user := Some {| name := str "Admin" |}; expires := 1762094460000 |}.

Definition admin_token : jsstring := encrypt dev (payload_value admin_payload).

(** A request that carries [admin_token] as its session cookie. *)
Definition admin_store : cookie_store :=
  [{| cookie_name := SESSION_COOKIE; value := admin_token; options := None |}].

(** A signed payload without a user. *)
Definition guest_payload : SessionPayload :=
  {| user := None; expires := 1762094460000 |}.

Definition guest_store : cookie_store :=
  [{| cookie_name := SESSION_COOKIE;
      value := encrypt dev (payload_value guest_payload);
      options := None |}].

(** A signed token whose payload is [{"role":"admin"}]. *)
Definition role_token : jsstring :=
  encrypt dev (JObj [(str "role", JStr (str "admin"))]).

(** Fifteen saves, five seconds apart, by the user of [admin_store]. *)
Definition fifteen_saves : list (Z * jsstring) :=
  map (fun i => (1762093860000 + 5000 * i, str "10:00:" ++ digits (10 + i)))
    [0; 1; 2; 3; 4; 5; 6; 7; 8; 9; 10; 11; 12; 13; 14].

(** A value with a lone surrogate, a negative number and an index key. *)
Definition mixed_value : json :=
  JArr [JStr [55357; 97]; JNum (-17) 0;
        JObj [(str "0", JNull); (str "a", JBool true)]].
(* ================================================================= *)
(** * Properties *)

Ltac euclid := Z.to_euclidean_division_equations; lia.

(** Decides the tests of the goal on integers from the hypotheses. *)
Ltac ztest :=
  repeat match goal with
    | |- context [?a <? ?b] =>
        first [ replace (a <? b) with true by (symmetry; apply Z.ltb_lt; lia)
              | replace (a <? b) with false by (symmetry; apply Z.ltb_ge; lia) ]
    | |- context [?a <=? ?b] =>
        first [ replace (a <=? b) with true by (symmetry; apply Z.leb_le; lia)
              | replace (a <=? b) with false by (symmetry; apply Z.leb_gt; lia) ]
    | |- context [?a =? ?b] =>
        first [ replace (a =? b) with true by (symmetry; apply Z.eqb_eq; lia)
              | replace (a =? b) with false by (symmetry; apply Z.eqb_neq; lia) ]
    end.

(** ** Strings *)

Lemma str_eqb_refl (a : jsstring) : str_eqb a a = true.
Proof. induction a; simpl; [ reflexivity | now rewrite Z.eqb_refl ]. Qed.

Lemma str_eqb_eq (a b : jsstring) : str_eqb a b = true <-> a = b.
Proof.
  split.
  - revert b; induction a as [|x a IH]; intros [|y b] H; simpl in H;
      try discriminate; [ reflexivity | ].
    apply andb_true_iff in H as [H1 H2].
    apply Z.eqb_eq in H1. apply IH in H2. now subst.
  - intros ->. apply str_eqb_refl.
Qed.

Lemma str_eqb_neq (a b : jsstring) : str_eqb a b = false <-> a <> b.
Proof.
  split.
  - intros H E. apply str_eqb_eq in E. congruence.
  - intros H. destruct (str_eqb a b) eqn:E; [ | reflexivity ].
    apply str_eqb_eq in E. contradiction.
Qed.

Lemma list_ind3 {A} (P : list A -> Prop) :
  P [] -> (forall a, P [a]) -> (forall a b, P [a; b]) ->
  (forall a b c r, P r -> P (a :: b :: c :: r)) ->
  forall l, P l.
Proof.
  intros H0 H1 H2 H3.
  assert (H : forall l, P l /\ (forall a, P (a :: l)) /\ (forall a b, P (a :: b :: l))).
  { induction l as [|x l [IH0 [IH1 IH2]]]; repeat split; auto. }
  intro l. apply H.
Qed.

(** ** split *)

Lemma split_no_dot (s : jsstring) : no_dot s -> split 46 s = [s].
Proof.
  induction 1 as [|c s Hc _ IH]; simpl; [ reflexivity | ].
  rewrite IH. destruct (Z.eqb_spec c 46); [ contradiction | reflexivity ].
Qed.

Lemma split_app (a r : jsstring) :
  no_dot a -> split 46 (a ++ 46 :: r) = a :: split 46 r.
Proof.
  induction 1 as [|c s Hc _ IH]; simpl; [ reflexivity | ].
  rewrite IH. destruct (Z.eqb_spec c 46); [ contradiction | reflexivity ].
Qed.

Lemma split_three (a b c : jsstring) :
  no_dot a -> no_dot b -> no_dot c ->
  split 46 (a ++ dot ++ b ++ dot ++ c) = [a; b; c].
Proof.
  intros Ha Hb Hc. unfold dot. simpl.
  rewrite (split_app a) by assumption.
  rewrite (split_app b) by assumption.
  now rewrite split_no_dot.
Qed.

Lemma split_nonempty (s : jsstring) : split 46 s <> [].
Proof.
  destruct s as [|c s]; simpl; [ discriminate | ].
  destruct (c =? 46); [ discriminate | ].
  destruct (split 46 s); discriminate.
Qed.

Lemma split_join (s : jsstring) : join_dots (split 46 s) = s.
Proof.
  induction s as [|c s IH]; simpl; [ reflexivity | ].
  destruct (Z.eqb_spec c 46) as [->|Hc].
  - pose proof (split_nonempty s) as Hne.
    destruct (split 46 s) as [|p ps] eqn:E; [ contradiction | ].
    simpl in *. now rewrite IH.
  - pose proof (split_nonempty s) as Hne.
    destruct (split 46 s) as [|p ps] eqn:E; [ contradiction | ].
    simpl in *. destruct ps; simpl in *; now rewrite <- IH.
Qed.

Lemma split_parts_no_dot (s : jsstring) : Forall no_dot (split 46 s).
Proof.
  induction s as [|c s IH]; simpl.
  - repeat constructor.
  - destruct (Z.eqb_spec c 46) as [->|Hc].
    + constructor; [ constructor | assumption ].
    + destruct (split 46 s) as [|p ps]; [ repeat constructor; assumption | ].
      inversion IH; subst. constructor; [ constructor; assumption | assumption ].
Qed.

(** ** Checking a property on an initial segment of the integers *)

Lemma forall_from_spec (P : Z -> bool) (count : nat) :
  forall start, forall_from P start count = true ->
  forall n, start <= n < start + Z.of_nat count -> P n = true.
Proof.
  induction count as [|c IH]; intros start H n Hn; [ lia | ].
  cbn [forall_from] in H. apply andb_true_iff in H as [H1 H2].
  destruct (Z.eq_dec n start) as [->|Hne]; [ assumption | ].
  apply (IH (start + 1) H2). lia.
Qed.

Lemma forall_below (P : Z -> bool) (k : Z) :
  forall_from P 0 (Z.to_nat k) = true ->
  forall n, 0 <= n < k -> P n = true.
Proof.
  intros H n Hn. apply (forall_from_spec P (Z.to_nat k) 0 H). lia.
Qed.

(** ** base64 *)

Lemma b64url_char_spec (n : Z) :
  is_sextet n ->
  url_char (b64url_char n) = true /\ b64_char n <> 61 /\
  unbase64 (b64url_char n) = Some n /\
  b64url_char n = (fun c => if c =? 47 then 95 else c)
                    ((fun c => if c =? 43 then 45 else c) (b64_char n)).
Proof.
  intros Hn.
  assert (H : (url_char (b64url_char n)
               && negb (b64_char n =? 61)
               && match unbase64 (b64url_char n) with
                  | Some v => v =? n
                  | None => false
                  end) = true).
  { revert n Hn. apply (forall_below _ 64). vm_compute. reflexivity. }
  apply andb_true_iff in H as [H H3]. apply andb_true_iff in H as [H1 H2].
  repeat split; try assumption.
  - intros E. rewrite E in H2. discriminate.
  - destruct (unbase64 (b64url_char n)); [ | discriminate ].
    apply Z.eqb_eq in H3. now subst.
Qed.

Lemma url_char_no_dot (c : Z) : url_char c = true -> c <> 46 /\ c <> 61.
Proof.
  unfold url_char, in_range. intros H. split; intros ->; discriminate.
Qed.

Lemma enc_sextets_range (bs : bytes) :
  Forall is_byte bs -> Forall is_sextet (enc_sextets bs).
Proof.
  unfold is_byte, is_sextet.
  induction bs as [| a | a b | a b c r IH] using list_ind3; intros H; simpl.
  - constructor.
  - inversion_clear H. repeat constructor; euclid.
  - inversion_clear H as [|? ? Ha H']. inversion_clear H'.
    repeat constructor; euclid.
  - inversion_clear H as [|? ? Ha H']. inversion_clear H' as [|? ? Hb H''].
    inversion_clear H'' as [|? ? Hc Hr].
    repeat (constructor; [ euclid | ]). now apply IH.
Qed.

Lemma Buffer_from_range (b : bytes) : Forall is_byte (Buffer_from b).
Proof.
  unfold Buffer_from, is_byte. apply Forall_forall. intros x Hx.
  apply in_map_iff in Hx as [y [<- _]]. euclid.
Qed.

Lemma Buffer_from_id (b : bytes) : Forall is_byte b -> Buffer_from b = b.
Proof.
  unfold Buffer_from, is_byte. induction 1 as [|x l Hx _ IH]; simpl;
    [ reflexivity | ].
  rewrite IH. f_equal. apply Z.mod_small. lia.
Qed.

Lemma base64_encode_sextets (bs : bytes) :
  exists k, base64_encode bs = map b64_char (enc_sextets bs) ++ repeat 61 k.
Proof.
  induction bs as [| a | a b | a b c r [k IH]] using list_ind3.
  - exists 0%nat. reflexivity.
  - exists 2%nat. reflexivity.
  - exists 1%nat. reflexivity.
  - exists k. change (base64_encode (a :: b :: c :: r))
      with ([b64_char (a / 4); b64_char ((a mod 4) * 16 + b / 16);
             b64_char ((b mod 16) * 4 + c / 64); b64_char (c mod 64)]
              ++ base64_encode r).
    rewrite IH. reflexivity.
Qed.

Lemma remove_pad (l : list Z) (k : nat) :
  Forall is_sextet l ->
  remove_all 61 (map b64_char l ++ repeat 61 k) = map b64_char l.
Proof.
  unfold remove_all. intros H. rewrite filter_app.
  replace (filter (fun c => negb (c =? 61)) (repeat 61 k)) with (@nil Z).
  2:{ induction k; simpl; [ reflexivity | assumption ]. }
  rewrite app_nil_r.
  induction H as [|n l Hn _ IH]; simpl; [ reflexivity | ].
  destruct (b64url_char_spec n Hn) as [_ [Hne _]].
  destruct (Z.eqb_spec (b64_char n) 61); [ contradiction | ].
  simpl. now rewrite IH.
Qed.

(** [b64url] writes the six-bit groups of its bytes in the URL-safe
    alphabet. *)
Lemma b64url_sextets (input : b64url_input) :
  exists bs, Forall is_byte bs /\
    bs = Buffer_from (match input with
                      | OfString s => TextEncoder_encode s
                      | OfBuffer b => b
                      end) /\
    b64url input = map b64url_char (enc_sextets bs).
Proof.
  eexists. split; [ apply Buffer_from_range | ]. split; [ reflexivity | ].
  unfold b64url.
  set (bs := Buffer_from _).
  assert (Hs : Forall is_sextet (enc_sextets bs))
    by apply enc_sextets_range, Buffer_from_range.
  destruct (base64_encode_sextets bs) as [k ->].
  rewrite remove_pad by assumption.
  unfold replace_all. rewrite !map_map.
  apply map_ext_in. intros n Hn.
  rewrite Forall_forall in Hs.
  now destruct (b64url_char_spec n (Hs n Hn)) as [_ [_ [_ ->]]].
Qed.

Lemma b64url_url_chars (input : b64url_input) :
  Forall (fun c => url_char c = true) (b64url input).
Proof.
  destruct (b64url_sextets input) as [bs [Hb [_ ->]]].
  apply enc_sextets_range in Hb.
  apply Forall_forall. intros c Hc.
  apply in_map_iff in Hc as [n [<- Hn]].
  rewrite Forall_forall in Hb. now apply b64url_char_spec, Hb.
Qed.

Lemma b64url_no_dot (input : b64url_input) : no_dot (b64url input).
Proof.
  eapply Forall_impl; [ | apply b64url_url_chars ].
  intros c Hc. now apply url_char_no_dot.
Qed.

Lemma sextets_decode (l : list Z) (k : nat) :
  Forall is_sextet l ->
  sextets (replace_all 95 47 (replace_all 45 43 (map b64url_char l)) ++ repeat 61 k) = l.
Proof.
  unfold replace_all. rewrite !map_map.
  induction 1 as [|n l Hn _ IH]; simpl.
  - destruct k; reflexivity.
  - rewrite IH.
    assert (H : (let c := (fun c => if c =? 95 then 47 else c)
                            ((fun c => if c =? 45 then 43 else c) (b64url_char n)) in
                 negb (c =? 61) && match unbase64 c with
                                   | Some v => v =? n
                                   | None => false
                                   end) = true).
    { revert n Hn. apply (forall_below _ 64). vm_compute. reflexivity. }
    cbv zeta in H. apply andb_true_iff in H as [H1 H2].
    apply negb_true_iff in H1. simpl. rewrite H1.
    destruct (unbase64 _); [ | discriminate ].
    apply Z.eqb_eq in H2. now subst.
Qed.

Lemma sextets_to_bytes_enc (bs : bytes) :
  Forall is_byte bs -> sextets_to_bytes (enc_sextets bs) = bs.
Proof.
  unfold is_byte.
  induction bs as [| a | a b | a b c r IH] using list_ind3; intros H.
  - reflexivity.
  - inversion_clear H. simpl. f_equal. euclid.
  - inversion_clear H as [|? ? Ha H']. inversion_clear H'.
    simpl. f_equal; [ euclid | f_equal; euclid ].
  - inversion_clear H as [|? ? Ha H']. inversion_clear H' as [|? ? Hb H''].
    inversion_clear H'' as [|? ? Hc Hr].
    change (enc_sextets (a :: b :: c :: r))
      with ([a / 4; (a mod 4) * 16 + b / 16; (b mod 16) * 4 + c / 64; c mod 64]
              ++ enc_sextets r).
    simpl. rewrite IH by assumption.
    f_equal; [ euclid | f_equal; [ euclid | f_equal; euclid ] ].
Qed.

(** Decoding what [b64url] wrote gives the bytes back. *)
Lemma b64urlDecode_b64url (input : b64url_input) :
  b64urlDecode (b64url input)
  = Buffer_from (match input with
                 | OfString s => TextEncoder_encode s
                 | OfBuffer b => b
                 end).
Proof.
  destruct (b64url_sextets input) as [bs [Hb [<- ->]]].
  unfold b64urlDecode, Buffer_from_base64.
  rewrite sextets_decode by now apply enc_sextets_range.
  now apply sextets_to_bytes_enc.
Qed.

(** ** UTF-8 *)

Lemma surrogate_tests (c : Z) :
  (is_high_surrogate c = true <-> 55296 <= c <= 56319) /\
  (is_low_surrogate c = true <-> 56320 <= c <= 57343).
Proof.
  unfold is_high_surrogate, is_low_surrogate, in_range.
  rewrite !andb_true_iff, !Z.leb_le. tauto.
Qed.

Lemma not_surrogate (c : Z) :
  is_high_surrogate c = false -> is_low_surrogate c = false ->
  c < 55296 \/ 57343 < c.
Proof.
  unfold is_high_surrogate, is_low_surrogate, in_range.
  rewrite !andb_false_iff, !Z.leb_gt. lia.
Qed.

(** Unfolds the decoder on its first byte only. *)
Ltac decode_head :=
  cbn [app];
  match goal with
  | |- utf8_decode (?b :: ?r) = _ =>
      let tl := fresh "tl" in
      remember r as tl; cbn [utf8_decode]; subst tl; cbv beta iota zeta
  end; unfold in_range.

Lemma two_byte_parts (cp : Z) :
  exists q r, cp / 64 = q /\ cp mod 64 = r /\ cp = q * 64 + r /\ 0 <= r < 64.
Proof. do 2 eexists. repeat split; try reflexivity; euclid. Qed.

Lemma three_byte_parts (cp : Z) :
  exists q r1 r2,
    cp / 4096 = q /\ (cp / 64) mod 64 = r1 /\ cp mod 64 = r2 /\
    cp = q * 4096 + r1 * 64 + r2 /\ 0 <= r1 < 64 /\ 0 <= r2 < 64.
Proof. do 3 eexists. repeat split; try reflexivity; euclid. Qed.

Lemma four_byte_parts (cp : Z) :
  exists q r1 r2 r3,
    cp / 262144 = q /\ (cp / 4096) mod 64 = r1 /\ (cp / 64) mod 64 = r2 /\
    cp mod 64 = r3 /\ cp = q * 262144 + r1 * 4096 + r2 * 64 + r3 /\
    0 <= r1 < 64 /\ 0 <= r2 < 64 /\ 0 <= r3 < 64.
Proof. do 4 eexists. repeat split; try reflexivity; euclid. Qed.

(** One scalar value, encoded and decoded. *)
Lemma utf8_decode_encode_cp (cp : Z) (bs : bytes) :
  0 <= cp < 1114112 -> (cp < 55296 \/ 57343 < cp) ->
  utf8_decode (utf8_encode_cp cp ++ bs) = cp :: utf8_decode bs.
Proof.
  intros Hr Hs. unfold utf8_encode_cp.
  destruct (Z.ltb_spec cp 128).
  { decode_head. ztest. reflexivity. }
  destruct (Z.ltb_spec cp 2048).
  { destruct (two_byte_parts cp) as (q & r & -> & -> & -> & Hq).
    decode_head. ztest. cbn [andb]. f_equal. lia. }
  destruct (Z.ltb_spec cp 65536).
  { destruct (three_byte_parts cp) as (q & r1 & r2 & -> & -> & -> & -> & Hb1 & Hb2).
    decode_head.
    destruct (Z.eqb_spec (224 + q) 224); destruct (Z.eqb_spec (224 + q) 237);
      ztest; cbn [andb]; f_equal; lia. }
  destruct (four_byte_parts cp)
    as (q & r1 & r2 & r3 & -> & -> & -> & -> & -> & Hb1 & Hb2 & Hb3).
  decode_head.
  destruct (Z.eqb_spec (240 + q) 240); destruct (Z.eqb_spec (240 + q) 244);
    ztest; cbn [andb]; f_equal; lia.
Qed.

Lemma utf8_encode_cp_bytes (cp : Z) :
  0 <= cp < 1114112 -> Forall is_byte (utf8_encode_cp cp).
Proof.
  intros Hr. unfold utf8_encode_cp, is_byte.
  destruct (Z.ltb_spec cp 128); [ repeat constructor; lia | ].
  destruct (Z.ltb_spec cp 2048); [ repeat constructor; euclid | ].
  destruct (Z.ltb_spec cp 65536); repeat constructor; euclid.
Qed.

Lemma pair_code_point (h l : Z) :
  is_high_surrogate h = true -> is_low_surrogate l = true ->
  let cp := 65536 + (h - 55296) * 1024 + (l - 56320) in
  65536 <= cp < 1114112 /\ cp_to_utf16 cp = [h; l].
Proof.
  intros Hh Hl cp. apply surrogate_tests in Hh. apply surrogate_tests in Hl.
  subst cp. split; [ lia | ].
  unfold cp_to_utf16. ztest. f_equal; [ euclid | f_equal; euclid ].
Qed.

Lemma utf16_of_decoded (s : jsstring) :
  well_formed s ->
  flat_map cp_to_utf16 (utf8_decode (TextEncoder_encode s)) = s.
Proof.
  induction 1 as [| c s Hc Hh Hl _ IH | h l s Hh Hl _ IH].
  - reflexivity.
  - cbn [TextEncoder_encode]. rewrite Hh, Hl.
    pose proof (not_surrogate c Hh Hl). unfold is_code_unit in Hc.
    rewrite utf8_decode_encode_cp by lia.
    cbn [flat_map]. rewrite IH. unfold cp_to_utf16. ztest. reflexivity.
  - cbn [TextEncoder_encode]. rewrite Hh, Hl.
    destruct (pair_code_point h l Hh Hl) as [Hcp Hu].
    rewrite utf8_decode_encode_cp by lia.
    cbn [flat_map]. cbv zeta in Hu. rewrite Hu, IH. reflexivity.
Qed.

Lemma TextEncoder_bytes (s : jsstring) :
  well_formed s -> Forall is_byte (TextEncoder_encode s).
Proof.
  induction 1 as [| c s Hc Hh Hl _ IH | h l s Hh Hl _ IH].
  - constructor.
  - cbn [TextEncoder_encode]. rewrite Hh, Hl. apply Forall_app.
    split; [ | assumption ].
    apply utf8_encode_cp_bytes. unfold is_code_unit in Hc. lia.
  - cbn [TextEncoder_encode]. rewrite Hh, Hl. apply Forall_app.
    split; [ | assumption ].
    apply utf8_encode_cp_bytes.
    pose proof (pair_code_point h l Hh Hl) as [Hcp _]. lia.
Qed.

(** Text that is well formed and does not begin with U+FEFF survives
    encoding and decoding. *)
Lemma TextDecoder_TextEncoder (s : jsstring) :
  well_formed s -> hd 0 s <> 65279 ->
  TextDecoder_decode (TextEncoder_encode s) = s.
Proof.
  intros Hw Hb. unfold TextDecoder_decode.
  rewrite <- (utf16_of_decoded s Hw) at 2. f_equal.
  destruct Hw as [| c s Hc Hh Hl Hw | h l s Hh Hl Hw].
  - reflexivity.
  - cbn [TextEncoder_encode]. rewrite Hh, Hl.
    pose proof (not_surrogate c Hh Hl). unfold is_code_unit in Hc.
    rewrite utf8_decode_encode_cp by lia.
    cbn [hd] in Hb. cbn [strip_bom]. now destruct (Z.eqb_spec c 65279).
  - cbn [TextEncoder_encode]. rewrite Hh, Hl.
    destruct (pair_code_point h l Hh Hl) as [Hcp _].
    rewrite utf8_decode_encode_cp by lia.
    cbn [strip_bom]. ztest. reflexivity.
Qed.

Lemma well_formed_app (a b : jsstring) :
  well_formed a -> well_formed b -> well_formed (a ++ b).
Proof.
  induction 1; intros Hb; simpl; [ assumption | | ].
  - apply wf_unit; auto.
  - apply wf_pair; auto.
Qed.

Lemma well_formed_ascii (s : jsstring) : Forall is_ascii s -> well_formed s.
Proof.
  unfold is_ascii. induction 1 as [|c s Hc _ IH]; [ constructor | ].
  apply wf_unit; [ unfold is_code_unit; lia | | | assumption ];
    unfold is_high_surrogate, is_low_surrogate, in_range; ztest; reflexivity.
Qed.

(** ** JSON strings *)

Lemma list_ind_pair {A} (P : list A -> Prop) :
  P [] -> (forall a, P [a]) ->
  (forall a b r, P (b :: r) -> P r -> P (a :: b :: r)) ->
  forall l, P l.
Proof.
  intros H0 H1 H2.
  assert (H : forall l, P l /\ forall a, P (a :: l)).
  { induction l as [|x l [IHl IHx]]; split; auto. }
  intro l. apply H.
Qed.

(** Unfolds the string parser on its first character only. *)
Ltac string_head :=
  cbn [app];
  match goal with
  | |- context [parse_string_body (?b :: ?r)] =>
      let tl := fresh "tl" in
      remember r as tl; cbn [parse_string_body]; subst tl; cbv beta iota
  end.

Lemma unhex4_escape (c : Z) :
  is_code_unit c ->
  unhex4 (hex_digit (c / 4096)) (hex_digit ((c / 256) mod 16))
         (hex_digit ((c / 16) mod 16)) (hex_digit (c mod 16)) = Some c.
Proof.
  intros Hc.
  assert (H : match unhex4 (hex_digit (c / 4096)) (hex_digit ((c / 256) mod 16))
                    (hex_digit ((c / 16) mod 16)) (hex_digit (c mod 16)) with
              | Some v => v =? c
              | None => false
              end = true).
  { revert c Hc. apply (forall_below _ 65536). vm_compute. reflexivity. }
  destruct (unhex4 _ _ _ _); [ | discriminate ].
  apply Z.eqb_eq in H. now subst.
Qed.

Lemma parse_unicode_escape (c : Z) (t : jsstring) :
  is_code_unit c ->
  parse_string_body (unicode_escape c ++ t)
  = match parse_string_body t with
    | Some (x, rest) => Some (c :: x, rest)
    | None => None
    end.
Proof.
  intros Hc. unfold unicode_escape. string_head. ztest.
  now rewrite unhex4_escape.
Qed.

Lemma parse_plain_unit (c : Z) (t : jsstring) :
  32 <= c -> c <> 34 -> c <> 92 ->
  parse_string_body (c :: t)
  = match parse_string_body t with
    | Some (x, rest) => Some (c :: x, rest)
    | None => None
    end.
Proof. intros. string_head. ztest. reflexivity. Qed.

Lemma parse_quote_unit (c : Z) (t : jsstring) :
  is_code_unit c ->
  parse_string_body (quote_unit c ++ t)
  = match parse_string_body t with
    | Some (x, rest) => Some (c :: x, rest)
    | None => None
    end.
Proof.
  intros Hc. unfold quote_unit.
  repeat match goal with
    | |- context [if ?a =? ?b then _ else _] =>
        destruct (Z.eqb_spec a b);
        [ subst; string_head; unfold unescape; ztest; reflexivity | ]
    end.
  destruct (Z.ltb_spec c 32).
  - now apply parse_unicode_escape.
  - now apply parse_plain_unit.
Qed.

(** The parser reads back what QuoteJSONString wrote. *)
Lemma quote_chars_cons (c : Z) (rest : jsstring) :
  quote_chars (c :: rest)
  = if is_high_surrogate c then
      match rest with
      | l :: rest' =>
          if is_low_surrogate l then c :: l :: quote_chars rest'
          else unicode_escape c ++ quote_chars rest
      | [] => unicode_escape c
      end
    else if is_low_surrogate c then unicode_escape c ++ quote_chars rest
    else quote_unit c ++ quote_chars rest.
Proof. destruct rest; reflexivity. Qed.

Lemma parse_quote_chars (s rest : jsstring) :
  Forall is_code_unit s ->
  parse_string_body (quote_chars s ++ 34 :: rest) = Some (s, rest).
Proof.
  induction s as [| a | a b r IHb IHr] using list_ind_pair; intros Hs.
  - cbn [quote_chars app]. string_head. ztest. reflexivity.
  - inversion_clear Hs as [|? ? Ha _].
    rewrite quote_chars_cons. cbn [quote_chars].
    assert (E : parse_string_body (34 :: rest) = Some ([], rest))
      by (string_head; ztest; reflexivity).
    destruct (is_high_surrogate a); [ | destruct (is_low_surrogate a) ].
    + now rewrite parse_unicode_escape, E.
    + now rewrite app_nil_r, parse_unicode_escape, E.
    + now rewrite app_nil_r, parse_quote_unit, E.
  - inversion Hs as [|? ? Ha Hbr]; subst.
    inversion Hbr as [|? ? Hb Hr]; subst.
    specialize (IHb Hbr). specialize (IHr Hr).
    rewrite (quote_chars_cons a (b :: r)). cbv iota.
    destruct (is_high_surrogate a) eqn:Hh.
    + destruct (is_low_surrogate b) eqn:Hl.
      * apply surrogate_tests in Hh. apply surrogate_tests in Hl.
        cbn [app]. rewrite parse_plain_unit by lia.
        rewrite parse_plain_unit by lia. now rewrite IHr.
      * rewrite <- app_assoc, parse_unicode_escape by assumption.
        now rewrite IHb.
    + destruct (is_low_surrogate a).
      * rewrite <- app_assoc, parse_unicode_escape by assumption.
        now rewrite IHb.
      * rewrite <- app_assoc, parse_quote_unit by assumption.
        now rewrite IHb.
Qed.

Lemma hex_digit_ascii (n : Z) : 0 <= n < 16 -> is_ascii (hex_digit n).
Proof. unfold hex_digit, is_ascii. intros. destruct (n <? 10); lia. Qed.

Lemma unicode_escape_ascii (c : Z) :
  is_code_unit c -> Forall is_ascii (unicode_escape c).
Proof.
  unfold is_code_unit, unicode_escape. intros Hc.
  repeat constructor; try (apply hex_digit_ascii; euclid);
    unfold is_ascii; lia.
Qed.

Lemma quote_unit_well_formed (c : Z) :
  is_code_unit c -> is_high_surrogate c = false -> is_low_surrogate c = false ->
  well_formed (quote_unit c).
Proof.
  intros Hc Hh Hl. unfold quote_unit.
  repeat match goal with
    | |- context [if ?a =? ?b then _ else _] =>
        destruct (Z.eqb_spec a b);
        [ apply well_formed_ascii; repeat constructor; unfold is_ascii; lia | ]
    end.
  destruct (Z.ltb_spec c 32).
  - now apply well_formed_ascii, unicode_escape_ascii.
  - apply wf_unit; auto. constructor.
Qed.

Lemma quote_chars_well_formed (s : jsstring) :
  Forall is_code_unit s -> well_formed (quote_chars s).
Proof.
  induction s as [| a | a b r IHb IHr] using list_ind_pair; intros Hs.
  - constructor.
  - inversion_clear Hs as [|? ? Ha _]. rewrite quote_chars_cons. cbn [quote_chars].
    destruct (is_high_surrogate a) eqn:Hh; [ | destruct (is_low_surrogate a) eqn:Hl ].
    + now apply well_formed_ascii, unicode_escape_ascii.
    + rewrite app_nil_r. now apply well_formed_ascii, unicode_escape_ascii.
    + rewrite app_nil_r. now apply quote_unit_well_formed.
  - inversion Hs as [|? ? Ha Hbr]; subst.
    inversion Hbr as [|? ? Hb Hr]; subst.
    specialize (IHb Hbr). specialize (IHr Hr).
    rewrite (quote_chars_cons a (b :: r)). cbv iota.
    destruct (is_high_surrogate a) eqn:Hh.
    + destruct (is_low_surrogate b) eqn:Hl.
      * now apply wf_pair.
      * apply well_formed_app; [ | exact IHb ].
        now apply well_formed_ascii, unicode_escape_ascii.
    + destruct (is_low_surrogate a) eqn:Hl.
      * apply well_formed_app; [ | exact IHb ].
        now apply well_formed_ascii, unicode_escape_ascii.
      * apply well_formed_app; [ | exact IHb ].
        now apply quote_unit_well_formed.
Qed.

Lemma QuoteJSONString_well_formed (s : jsstring) :
  Forall is_code_unit s -> well_formed (QuoteJSONString s).
Proof.
  intros Hs. unfold QuoteJSONString.
  apply well_formed_app; [ apply well_formed_ascii; repeat constructor; unfold is_ascii; lia | ].
  apply well_formed_app; [ now apply quote_chars_well_formed | ].
  apply well_formed_ascii; repeat constructor; unfold is_ascii; lia.
Qed.

(** ** JSON numbers *)

Lemma digits_fuel_app (f : nat) (n : Z) (acc rest : jsstring) :
  digits_fuel f n acc ++ rest = digits_fuel f n (acc ++ rest).
Proof.
  revert n acc. induction f as [|f IH]; intros n acc; cbn [digits_fuel];
    [ reflexivity | ].
  destruct (n <? 10); [ reflexivity | ]. now rewrite IH.
Qed.

Lemma pow2_succ (f : nat) : 2 ^ Z.of_nat (S f) = 2 * 2 ^ Z.of_nat f.
Proof. rewrite Nat2Z.inj_succ, Z.pow_succ_r by lia. reflexivity. Qed.

Lemma digits_fuel_enough (n : Z) :
  0 <= n -> n < 2 ^ Z.of_nat (S (Z.to_nat (Z.log2 n))).
Proof.
  intros Hn. rewrite Nat2Z.inj_succ, Z2Nat.id by apply Z.log2_nonneg.
  destruct (Z.eq_dec n 0) as [->|Hz]; [ reflexivity | ].
  apply Z.log2_spec. lia.
Qed.

Lemma read_digits_fuel (f : nat) :
  forall n acc a cnt, 0 <= n < 2 ^ Z.of_nat (S f) ->
  exists p k, 0 < k /\
    read_digits (digits_fuel (S f) n acc) a cnt
    = read_digits acc (a * p + n) (cnt + k).
Proof.
  assert (Hlow : forall n acc a cnt, 0 <= n < 10 ->
            read_digits ((48 + n) :: acc) a cnt = read_digits acc (a * 10 + n) (cnt + 1)).
  { intros n acc a cnt Hn. cbn [read_digits]. unfold in_range. ztest.
    cbn [andb]. f_equal; lia. }
  induction f as [|f IH]; intros n acc a cnt Hn.
  - change (2 ^ Z.of_nat 1) with 2 in Hn. exists 10, 1. split; [ lia | ].
    cbn [digits_fuel]. ztest. apply Hlow. lia.
  - rewrite pow2_succ in Hn. cbn [digits_fuel].
    destruct (Z.ltb_spec n 10).
    + exists 10, 1. split; [ lia | ]. now apply Hlow.
    + destruct (IH (n / 10) ((48 + n mod 10) :: acc) a cnt) as (p & k & Hk & E);
        [ euclid | ].
      exists (p * 10), (k + 1). split; [ lia | ].
      cbn [digits_fuel] in E. rewrite E.
      rewrite Hlow by euclid. f_equal; [ euclid | lia ].
Qed.

Lemma digits_fuel_head (f : nat) :
  forall n acc, 1 <= n < 2 ^ Z.of_nat (S f) ->
  exists d tl, digits_fuel (S f) n acc = d :: tl /\ 49 <= d <= 57.
Proof.
  induction f as [|f IH]; intros n acc Hn.
  - change (2 ^ Z.of_nat 1) with 2 in Hn. cbn [digits_fuel]. ztest.
    do 2 eexists. split; [ reflexivity | lia ].
  - rewrite pow2_succ in Hn. cbn [digits_fuel].
    destruct (Z.ltb_spec n 10).
    + do 2 eexists. split; [ reflexivity | lia ].
    + destruct (IH (n / 10) ((48 + n mod 10) :: acc)) as (d & tl & E & Hd);
        [ euclid | ].
      cbn [digits_fuel] in E. rewrite E. eauto.
Qed.

Lemma digits_fuel_digits (f : nat) :
  forall n acc, 0 <= n -> Forall is_digit acc ->
  Forall is_digit (digits_fuel f n acc).
Proof.
  unfold is_digit.
  induction f as [|f IH]; intros n acc Hn Hacc; cbn [digits_fuel];
    [ assumption | ].
  destruct (Z.ltb_spec n 10).
  - constructor; [ lia | assumption ].
  - apply IH; [ euclid | ]. constructor; [ euclid | assumption ].
Qed.

Lemma digits_fuel_length (f : nat) :
  forall n acc k, 1 <= k -> 0 <= n < 10 ^ k ->
  Z.of_nat (List.length (digits_fuel f n acc)) <= k + Z.of_nat (List.length acc).
Proof.
  induction f as [|f IH]; intros n acc k Hk Hn; cbn [digits_fuel]; [ lia | ].
  destruct (Z.ltb_spec n 10).
  - cbn [List.length]. lia.
  - assert (Hk2 : 2 <= k).
    { destruct (Z.eq_dec k 1) as [->|]; [ change (10 ^ 1) with 10 in Hn | ]; lia. }
    replace k with (Z.succ (k - 1)) in Hn by lia.
    rewrite Z.pow_succ_r in Hn by lia.
    specialize (IH (n / 10) ((48 + n mod 10) :: acc) (k - 1)).
    cbn [List.length] in IH. rewrite Nat2Z.inj_succ in IH.
    assert (0 <= n / 10 < 10 ^ (k - 1)) by euclid. lia.
Qed.

Lemma drop_zeros_restore (l : jsstring) :
  exists j, l = repeat 48 j ++ drop_zeros l
            /\ (List.length l = j + List.length (drop_zeros l))%nat.
Proof.
  induction l as [|c l (j & E & Hl)]; [ exists 0%nat; split; reflexivity | ].
  cbn [drop_zeros]. destruct (Z.eqb_spec c 48) as [->|Hc].
  - exists (S j). cbn [repeat app List.length]. split; [ now rewrite <- E | lia ].
  - exists 0%nat. split; reflexivity.
Qed.

Lemma rev_repeat_same {A} (x : A) (n : nat) : rev (repeat x n) = repeat x n.
Proof.
  induction n as [|n IH]; [ reflexivity | ].
  cbn [repeat rev]. rewrite IH. clear IH.
  induction n as [|n IH]; [ reflexivity | ].
  cbn [repeat app]. now rewrite IH.
Qed.

Lemma strip_restore (ds : jsstring) :
  strip_trailing_zeros ds
    ++ repeat 48 (List.length ds - List.length (strip_trailing_zeros ds))
  = ds.
Proof.
  unfold strip_trailing_zeros.
  destruct (drop_zeros_restore (rev ds)) as (j & E & Hl).
  rewrite length_rev in *. rewrite Hl.
  replace (j + List.length (drop_zeros (rev ds)) - List.length (drop_zeros (rev ds)))%nat
    with j by lia.
  rewrite <- (rev_involutive ds) at 2. rewrite E at 2.
  now rewrite rev_app_distr, rev_repeat_same.
Qed.

Lemma strip_length (ds : jsstring) :
  (List.length (strip_trailing_zeros ds) <= List.length ds)%nat.
Proof.
  unfold strip_trailing_zeros.
  destruct (drop_zeros_restore (rev ds)) as (j & _ & Hl).
  rewrite length_rev in *. lia.
Qed.

(** An integer below 10^21 is written with all its digits. *)
Lemma Number_toString_integer (z : Z) :
  z <> 0 -> Z.abs z < 10 ^ 21 ->
  Number_toString z 0 = (if z <? 0 then [45] else []) ++ digits (Z.abs z).
Proof.
  intros Hz Hb. unfold Number_toString.
  destruct (Z.eqb_spec z 0); [ contradiction | ].
  f_equal.
  pose proof (strip_length (digits (Z.abs z))) as Hs.
  pose proof (digits_fuel_length (S (Z.to_nat (Z.log2 (Z.abs z)))) (Z.abs z) [] 21) as Hl.
  fold (digits (Z.abs z)) in Hl. cbn [List.length] in Hl.
  assert (Hl' : Z.of_nat (List.length (digits (Z.abs z))) <= 21) by (apply Hl; lia).
  clear Hl.
  rewrite Z.add_0_r. ztest. cbn [andb].
  etransitivity; [ | apply strip_restore ].
  f_equal. f_equal. lia.
Qed.

Lemma read_digits_stop (rest : jsstring) (a cnt : Z) :
  terminated rest -> read_digits rest a cnt = (a, cnt, rest).
Proof.
  destruct rest as [|c r]; [ reflexivity | ].
  cbn [terminated read_digits]. unfold in_range. intros [-> | [-> | ->]]; reflexivity.
Qed.

Lemma read_digits_integer (n : Z) (rest : jsstring) :
  0 <= n -> terminated rest ->
  exists k, 0 < k /\ read_digits (digits n ++ rest) 0 0 = (n, k, rest).
Proof.
  intros Hn Ht. unfold digits. rewrite digits_fuel_app. cbn [app].
  destruct (read_digits_fuel (Z.to_nat (Z.log2 n)) n rest 0 0) as (p & k & Hk & E).
  { split; [ assumption | now apply digits_fuel_enough ]. }
  exists k. split; [ assumption | ].
  rewrite E, read_digits_stop by assumption.
  replace (0 * p + n) with n by lia. replace (0 + k) with k by lia. reflexivity.
Qed.

Lemma parse_fraction_none (rest : jsstring) (int : Z) :
  terminated rest -> parse_fraction rest int = Some (int, 0, rest).
Proof.
  destruct rest as [|c r]; [ reflexivity | ].
  cbn [terminated]. unfold parse_fraction. intros [-> | [-> | ->]]; reflexivity.
Qed.

Lemma parse_exponent_none (rest : jsstring) :
  terminated rest -> parse_exponent rest = Some (0, rest).
Proof.
  destruct rest as [|c r]; [ reflexivity | ].
  cbn [terminated]. unfold parse_exponent. intros [-> | [-> | ->]]; reflexivity.
Qed.

Lemma canonical_integer (z : Z) : canonical z 0 = (z, 0).
Proof.
  unfold canonical. destruct (Z.eqb_spec z 0) as [->|Hz]; [ reflexivity | ].
  change (0 <=? 0) with true. cbv iota. unfold pow10.
  now rewrite Z.pow_0_r, Z.mul_1_r.
Qed.

(** Reading the digits of a natural number, with an optional sign before
    them. *)
Lemma parse_number_digits (neg : bool) (n : Z) (rest : jsstring) :
  0 <= n -> terminated rest -> (n = 0 -> neg = false) ->
  parse_number ((if neg then [45] else []) ++ digits n ++ rest)
  = Some (JNum (if neg then - n else n) 0, rest).
Proof.
  intros Hn Ht Hz.
  destruct (read_digits_integer n rest Hn Ht) as (k & Hk & E).
  assert (Hd : n = 0 /\ digits n = [48] \/
               exists d tl, digits n = d :: tl /\ 49 <= d <= 57).
  { destruct (Z.eq_dec n 0) as [->|Hne]; [ left; split; reflexivity | right ].
    apply digits_fuel_head. split; [ lia | now apply digits_fuel_enough ]. }
  destruct Hd as [[-> Hd] | (d & tl & Hd & Hr)].
  - rewrite (Hz eq_refl), Hd. cbn [app]. unfold parse_number.
    change (48 =? 45) with false. cbv iota.
    change (in_range 48 57 48) with true. change (48 =? 48) with true. cbv iota.
    rewrite parse_fraction_none, parse_exponent_none by assumption.
    reflexivity.
  - rewrite Hd in E. unfold parse_number.
    destruct neg; cbn [app]; rewrite Hd; cbn [app].
    + change (45 =? 45) with true. cbv iota. unfold in_range. ztest. cbn [andb].
      cbn [app] in E. rewrite E.
      rewrite parse_fraction_none, parse_exponent_none by assumption.
      change (0 + 0) with 0. now rewrite canonical_integer.
    + ztest. cbv iota. unfold in_range. ztest. cbn [andb].
      cbn [app] in E. rewrite E.
      rewrite parse_fraction_none, parse_exponent_none by assumption.
      change (0 + 0) with 0. now rewrite canonical_integer.
Qed.

Lemma parse_number_integer (z : Z) (rest : jsstring) :
  Z.abs z < 10 ^ 21 -> terminated rest ->
  parse_number (Number_toString z 0 ++ rest) = Some (JNum z 0, rest).
Proof.
  intros Hb Ht.
  destruct (Z.eq_dec z 0) as [->|Hz].
  - apply (parse_number_digits false 0 rest); auto. lia.
  - rewrite Number_toString_integer by assumption. rewrite <- app_assoc.
    destruct (Z.ltb_spec z 0).
    + rewrite (parse_number_digits true (Z.abs z) rest) by (auto; lia).
      do 3 f_equal. lia.
    + rewrite (parse_number_digits false (Z.abs z) rest) by (auto; lia).
      do 3 f_equal. lia.
Qed.

(** ** JSON values *)

Lemma json_induction (P : json -> Prop) :
  P JNull -> (forall b, P (JBool b)) -> (forall m e, P (JNum m e)) ->
  (forall s, P (JStr s)) ->
  (forall l, Forall P l -> P (JArr l)) ->
  (forall props, Forall P (map snd props) -> P (JObj props)) ->
  forall v, P v.
Proof.
  intros HN HB HNum HS HA HO.
  fix IH 1. intros [ | b | m e | s | l | props ].
  - exact HN.
  - apply HB.
  - apply HNum.
  - apply HS.
  - apply HA. induction l as [|x l IHl]; constructor; [ apply IH | exact IHl ].
  - apply HO. induction props as [|[k x] l IHl]; constructor;
      [ apply IH | exact IHl ].
Qed.

(** Unfolding equations of the parser, one per kind of value. *)

Lemma parse_value_string (f : nat) (r : jsstring) :
  parse_value (S f) (34 :: r)
  = match parse_string_body r with
    | Some (x, rest) => Some (JStr x, rest)
    | None => None
    end.
Proof. reflexivity. Qed.

Lemma parse_value_number (f : nat) (c : Z) (r : jsstring) :
  c = 45 \/ 48 <= c <= 57 ->
  parse_value (S f) (c :: r) = parse_number (c :: r).
Proof.
  intros Hc. cbn [parse_value skip_ws]. unfold is_ws. ztest.
  cbn [orb]. ztest. reflexivity.
Qed.

Lemma parse_value_array (f : nat) (c : Z) (r : jsstring) :
  value_start c ->
  parse_value (S f) (91 :: c :: r)
  = match parse_elements f (c :: r) with
    | Some (l, rest) => Some (JArr l, rest)
    | None => None
    end.
Proof.
  intros Hc. unfold value_start in Hc.
  change (parse_value (S f) (91 :: c :: r))
    with (match skip_ws (c :: r) with
          | c1 :: r1 =>
              if c1 =? 93 then Some (JArr [], r1)
              else match parse_elements f (c1 :: r1) with
                   | Some (l, rest) => Some (JArr l, rest)
                   | None => None
                   end
          | [] => None
          end).
  cbn [skip_ws]. unfold is_ws. ztest. cbn [orb]. ztest. reflexivity.
Qed.

Lemma parse_value_object (f : nat) (r : jsstring) :
  parse_value (S f) (123 :: 34 :: r)
  = match parse_members f (34 :: r) with
    | Some (ms, rest) => Some (JObj (build_object ms), rest)
    | None => None
    end.
Proof. reflexivity. Qed.

Lemma parse_elements_S (f : nat) (s : jsstring) :
  parse_elements (S f) s
  = match parse_value f s with
    | None => None
    | Some (v, r1) =>
        match skip_ws r1 with
        | [] => None
        | c :: r2 =>
            if c =? 93 then Some ([v], r2)
            else if c =? 44 then
              match parse_elements f r2 with
              | Some (l, rest) => Some (v :: l, rest)
              | None => None
              end
            else None
        end
    end.
Proof. reflexivity. Qed.

Lemma parse_members_S (f : nat) (r : jsstring) :
  parse_members (S f) (34 :: r)
  = match parse_string_body r with
    | None => None
    | Some (k, r1) =>
        match skip_ws r1 with
        | [] => None
        | c :: r2 =>
            if c =? 58 then
              match parse_value f r2 with
              | None => None
              | Some (v, r3) =>
                  match skip_ws r3 with
                  | [] => None
                  | d :: r4 =>
                      if d =? 125 then Some ([(k, v)], r4)
                      else if d =? 44 then
                        match parse_members f r4 with
                        | Some (ms, rest) => Some ((k, v) :: ms, rest)
                        | None => None
                        end
                      else None
                  end
              end
            else None
        end
    end.
Proof. reflexivity. Qed.

Lemma Number_toString_start (z : Z) :
  Z.abs z < 10 ^ 21 ->
  exists c tl, Number_toString z 0 = c :: tl /\ (c = 45 \/ 48 <= c <= 57).
Proof.
  intros Hb. destruct (Z.eq_dec z 0) as [->|Hz].
  - exists 48, []. split; [ reflexivity | lia ].
  - rewrite Number_toString_integer by assumption.
    destruct (z <? 0).
    + do 2 eexists. split; [ reflexivity | lia ].
    + destruct (digits_fuel_head (Z.to_nat (Z.log2 (Z.abs z))) (Z.abs z) [])
        as (d & tl & E & Hd).
      { split; [ lia | apply digits_fuel_enough; lia ]. }
      exists d, tl. split; [ exact E | lia ].
Qed.

Lemma stringify_start (v : json) :
  json_ok v -> exists c tl, JSON_stringify v = c :: tl /\ value_start c.
Proof.
  unfold value_start.
  intros [ | [|] | z Hz | s Hs | l Hl | props Hk Hv Hb ].
  - exists 110, [117; 108; 108]. split; [ reflexivity | lia ].
  - exists 116, [114; 117; 101]. split; [ reflexivity | lia ].
  - exists 102, [97; 108; 115; 101]. split; [ reflexivity | lia ].
  - destruct (Number_toString_start z Hz) as (c & tl & E & Hc).
    exists c, tl. split; [ exact E | lia ].
  - do 2 eexists. split; [ reflexivity | lia ].
  - do 2 eexists. split; [ reflexivity | lia ].
  - do 2 eexists. split; [ reflexivity | lia ].
Qed.

Lemma join_commas_two {A} (f : A -> jsstring) (x y : A) (r : list A) :
  join_commas f (x :: y :: r) = f x ++ 44 :: join_commas f (y :: r).
Proof. reflexivity. Qed.

Lemma join_commas_one {A} (f : A -> jsstring) (x : A) :
  join_commas f [x] = f x.
Proof. cbn [join_commas]. apply app_nil_r. Qed.

Lemma join_commas_start {A} (f : A -> jsstring) (x : A) (l : list A) c tl :
  f x = c :: tl -> exists tl', join_commas f (x :: l) = c :: tl'.
Proof.
  intros E. destruct l as [|y r].
  - rewrite join_commas_one, E. eauto.
  - rewrite join_commas_two, E. cbn [app]. eauto.
Qed.

Lemma skip_ws_comma (r : jsstring) : skip_ws (44 :: r) = 44 :: r.
Proof. reflexivity. Qed.

Lemma skip_ws_bracket (r : jsstring) : skip_ws (93 :: r) = 93 :: r.
Proof. reflexivity. Qed.

Lemma skip_ws_brace (r : jsstring) : skip_ws (125 :: r) = 125 :: r.
Proof. reflexivity. Qed.

Lemma parse_elements_join (l : list json) :
  l <> [] -> Forall parses_back l ->
  forall fuel rest,
    (List.length l + list_max (map weight l) <= fuel)%nat -> terminated rest ->
    parse_elements fuel (join_commas JSON_stringify l ++ 93 :: rest)
    = Some (l, rest).
Proof.
  induction l as [|x l IH]; [ congruence | ].
  intros _ Hall fuel rest Hf Ht.
  inversion Hall as [|? ? Hx Hl]; subst.
  cbn [List.length map list_max fold_right] in Hf.
  destruct fuel as [|f]; [ lia | ].
  rewrite parse_elements_S.
  destruct l as [|y r].
  - rewrite join_commas_one.
    rewrite (Hx f (93 :: rest)); [ | lia | cbn; auto ].
    rewrite skip_ws_bracket. reflexivity.
  - rewrite join_commas_two, <- app_assoc. cbn [app].
    rewrite (Hx f (44 :: _)); [ | lia | cbn; auto ].
    rewrite skip_ws_comma. change (44 =? 93) with false.
    change (44 =? 44) with true. cbv iota.
    rewrite IH; [ reflexivity | congruence | assumption | | assumption ].
    cbn [List.length map list_max fold_right] in *. lia.
Qed.

Lemma parse_members_join (props : list (jsstring * json)) :
  props <> [] ->
  Forall (fun kv => Forall is_code_unit (fst kv)) props ->
  Forall parses_back (map snd props) ->
  forall fuel rest,
    (List.length props + list_max (map (fun kv => weight (snd kv)) props) <= fuel)%nat ->
    terminated rest ->
    parse_members fuel (join_commas member_text props ++ 125 :: rest)
    = Some (props, rest).
Proof.
  induction props as [|[k x] l IH]; [ congruence | ].
  intros _ Hkeys Hall fuel rest Hf Ht.
  inversion Hkeys as [|? ? Hk Hkl]; subst.
  inversion Hall as [|? ? Hx Hl]; subst.
  cbn [List.length map list_max fold_right fst snd] in Hf, Hk.
  destruct fuel as [|f]; [ lia | ].
  assert (Hhead : forall tail, terminated tail ->
            parse_members (S f) (member_text (k, x) ++ tail)
            = match skip_ws tail with
              | [] => None
              | d :: r4 =>
                  if d =? 125 then Some ([(k, x)], r4)
                  else if d =? 44 then
                    match parse_members f r4 with
                    | Some (ms, rest) => Some ((k, x) :: ms, rest)
                    | None => None
                    end
                  else None
              end).
  { intros tail Htail. unfold member_text, QuoteJSONString. cbn [fst snd].
    rewrite <- !app_assoc. cbn [app].
    rewrite parse_members_S, parse_quote_chars by assumption.
    change (skip_ws (58 :: JSON_stringify x ++ tail))
      with (58 :: JSON_stringify x ++ tail).
    change (58 =? 58) with true. cbv iota.
    rewrite (Hx f tail); [ reflexivity | lia | assumption ]. }
  destruct l as [|y r].
  - rewrite join_commas_one.
    rewrite Hhead by (cbn; auto).
    rewrite skip_ws_brace. reflexivity.
  - rewrite join_commas_two, <- app_assoc. cbn [app].
    rewrite Hhead by (cbn; auto).
    rewrite skip_ws_comma. change (44 =? 125) with false.
    change (44 =? 44) with true. cbv iota.
    rewrite IH; [ reflexivity | congruence | assumption | assumption | | assumption ].
    cbn [List.length map list_max fold_right] in *. lia.
Qed.

Lemma Forall_modus {A} (P Q : A -> Prop) (l : list A) :
  Forall (fun x => P x -> Q x) l -> Forall P l -> Forall Q l.
Proof.
  induction 1 as [|x l Hx _ IH]; intros HP; [ constructor | ].
  inversion HP; subst. constructor; auto.
Qed.

(** The parser undoes [JSON.stringify], with enough fuel. *)
Lemma parse_stringify (v : json) : json_ok v -> parses_back v.
Proof.
  induction v as [ | b | m e | s | l IH | props IH ] using json_induction;
    intros Hok fuel rest Hf Ht; cbn [weight] in Hf;
    (destruct fuel as [|f]; [ lia | ]).
  - reflexivity.
  - destruct b; reflexivity.
  - inversion Hok as [ | | z Hz | | | ]; subst.
    cbn [JSON_stringify].
    destruct (Number_toString_start m Hz) as (c & tl & E & Hc).
    rewrite E. cbn [app]. rewrite parse_value_number by assumption.
    change (c :: tl ++ rest) with ((c :: tl) ++ rest). rewrite <- E.
    now apply parse_number_integer.
  - inversion Hok as [ | | | ? Hs | | ]; subst.
    cbn [JSON_stringify]. unfold QuoteJSONString.
    rewrite <- !app_assoc. cbn [app].
    rewrite parse_value_string, parse_quote_chars by assumption. reflexivity.
  - inversion Hok as [ | | | | ? Hl | ]; subst.
    pose proof (Forall_modus _ _ _ IH Hl) as Hback.
    destruct l as [|x l]; [ reflexivity | ].
    cbn [JSON_stringify]. rewrite <- !app_assoc. cbn [app].
    inversion Hl as [|? ? Hx _]; subst.
    destruct (stringify_start x Hx) as (c & tl & E & Hc).
    destruct (join_commas_start JSON_stringify x l c tl E) as (tl' & E').
    rewrite E'. cbn [app]. rewrite parse_value_array by assumption.
    change (c :: tl' ++ 93 :: rest) with ((c :: tl') ++ 93 :: rest).
    rewrite <- E'.
    rewrite parse_elements_join; [ reflexivity | congruence | assumption | lia | assumption ].
  - inversion Hok as [ | | | | | ? Hk Hv Hb ]; subst.
    pose proof (Forall_modus _ _ _ IH Hv) as Hback.
    destruct props as [|[k x] l]; [ reflexivity | ].
    cbn [JSON_stringify].
    change (join_commas (fun kv => QuoteJSONString (fst kv) ++ [58] ++ JSON_stringify (snd kv)))
      with (join_commas member_text).
    rewrite <- !app_assoc. cbn [app].
    assert (E' : exists tl', join_commas member_text ((k, x) :: l) = 34 :: tl').
    { eapply (join_commas_start member_text (k, x) l 34).
      unfold member_text, QuoteJSONString. cbn [fst app]. reflexivity. }
    destruct E' as (tl' & E').
    rewrite E'. cbn [app]. rewrite parse_value_object.
    change (34 :: tl' ++ 125 :: rest) with ((34 :: tl') ++ 125 :: rest).
    rewrite <- E'.
    rewrite parse_members_join;
      [ now rewrite Hb | congruence | assumption | assumption | | assumption ].
    lia.
Qed.

Lemma join_commas_weight {A} (w : A -> nat) (f : A -> jsstring) (l : list A) :
  Forall (fun x => (w x <= List.length (f x))%nat) l ->
  (List.length l + list_max (map w l) <= List.length (join_commas f l) + 1)%nat.
Proof.
  induction 1 as [|x l Hx Hl IH]; [ cbn; lia | ].
  destruct l as [|y r].
  - rewrite join_commas_one. cbn [List.length map list_max fold_right]. lia.
  - rewrite join_commas_two, length_app.
    cbn [List.length map list_max fold_right] in *. lia.
Qed.

Lemma weight_bound (v : json) :
  json_ok v -> (weight v <= List.length (JSON_stringify v))%nat.
Proof.
  induction v as [ | b | m e | s | l IH | props IH ] using json_induction;
    intros Hok.
  - cbn. lia.
  - destruct b; cbn; lia.
  - destruct (stringify_start _ Hok) as (c & tl & -> & _). cbn. lia.
  - cbn [weight JSON_stringify]. unfold QuoteJSONString. cbn [app List.length]. lia.
  - inversion Hok as [ | | | | ? Hl | ]; subst.
    pose proof (Forall_modus _ _ _ IH Hl) as Hw.
    apply (join_commas_weight weight JSON_stringify) in Hw.
    change (weight (JArr l)) with (S (List.length l + list_max (map weight l))).
    change (JSON_stringify (JArr l))
      with ([91] ++ join_commas JSON_stringify l ++ [93]).
    rewrite !length_app. cbn [List.length]. lia.
  - inversion Hok as [ | | | | | ? Hk Hv Hb ]; subst.
    pose proof (Forall_modus _ _ _ IH Hv) as Hw.
    assert (Hw' : Forall (fun kv => (weight (snd kv) <= List.length (member_text kv))%nat) props).
    { rewrite Forall_map in Hw. eapply Forall_impl; [ | exact Hw ].
      intros [k x] Hx. unfold member_text. cbn [fst snd] in *.
      rewrite !length_app. lia. }
    apply (join_commas_weight (fun kv => weight (snd kv)) member_text) in Hw'.
    change (weight (JObj props))
      with (S (List.length props + list_max (map (fun kv => weight (snd kv)) props))).
    change (JSON_stringify (JObj props))
      with ([123] ++ join_commas member_text props ++ [125]).
    rewrite !length_app. cbn [List.length]. lia.
Qed.

(** [JSON.parse(JSON.stringify(v))] is [v]. *)
Lemma JSON_parse_stringify (v : json) :
  json_ok v -> JSON_parse (JSON_stringify v) = Some v.
Proof.
  intros Hok. unfold JSON_parse.
  pose proof (weight_bound v Hok) as Hw.
  rewrite <- (app_nil_r (JSON_stringify v)) at 2.
  rewrite (parse_stringify v Hok); [ reflexivity | lia | exact I ].
Qed.

Lemma digits_ascii (n : Z) : 0 <= n -> Forall is_ascii (digits n).
Proof.
  intros Hn. eapply Forall_impl; [ | apply digits_fuel_digits; [ exact Hn | constructor ] ].
  unfold is_digit, is_ascii. intros. lia.
Qed.

Lemma Number_toString_ascii (z : Z) :
  Z.abs z < 10 ^ 21 -> Forall is_ascii (Number_toString z 0).
Proof.
  intros Hb. destruct (Z.eq_dec z 0) as [->|Hz].
  - repeat constructor; unfold is_ascii; lia.
  - rewrite Number_toString_integer by assumption.
    apply Forall_app. split; [ | apply digits_ascii; lia ].
    destruct (z <? 0); repeat constructor; unfold is_ascii; lia.
Qed.

Lemma join_commas_well_formed {A} (f : A -> jsstring) (l : list A) :
  Forall (fun x => well_formed (f x)) l -> well_formed (join_commas f l).
Proof.
  induction 1 as [|x l Hx Hl IH]; [ constructor | ].
  destruct l as [|y r].
  - now rewrite join_commas_one.
  - rewrite join_commas_two. apply well_formed_app; [ assumption | ].
    apply (well_formed_app [44]); [ | assumption ].
    apply well_formed_ascii. repeat constructor; unfold is_ascii; lia.
Qed.

Lemma ascii_char_well_formed (c : Z) : is_ascii c -> well_formed [c].
Proof. intros Hc. apply well_formed_ascii. constructor; [ exact Hc | constructor ]. Qed.

Lemma JSON_stringify_well_formed (v : json) :
  json_ok v -> well_formed (JSON_stringify v).
Proof.
  induction v as [ | b | m e | s | l IH | props IH ] using json_induction;
    intros Hok.
  - apply well_formed_ascii. repeat constructor; unfold is_ascii; lia.
  - destruct b; apply well_formed_ascii; repeat constructor; unfold is_ascii; lia.
  - inversion Hok; subst. now apply well_formed_ascii, Number_toString_ascii.
  - inversion Hok; subst. now apply QuoteJSONString_well_formed.
  - inversion Hok as [ | | | | ? Hl | ]; subst.
    pose proof (Forall_modus _ _ _ IH Hl) as Hw.
    cbn [JSON_stringify].
    apply well_formed_app; [ apply ascii_char_well_formed; unfold is_ascii; lia | ].
    apply well_formed_app; [ now apply join_commas_well_formed | ].
    apply ascii_char_well_formed; unfold is_ascii; lia.
  - inversion Hok as [ | | | | | ? Hk Hv Hb ]; subst.
    pose proof (Forall_modus _ _ _ IH Hv) as Hw.
    cbn [JSON_stringify].
    apply well_formed_app; [ apply ascii_char_well_formed; unfold is_ascii; lia | ].
    apply well_formed_app; [ | apply ascii_char_well_formed; unfold is_ascii; lia ].
    apply join_commas_well_formed.
    rewrite Forall_map in Hw. rewrite Forall_forall in *.
    intros [k x] Hin. cbn [fst snd].
    apply well_formed_app; [ apply QuoteJSONString_well_formed, (Hk _ Hin) | ].
    apply well_formed_app; [ apply ascii_char_well_formed; unfold is_ascii; lia | ].
    apply (Hw _ Hin).
Qed.

Lemma JSON_stringify_no_bom (v : json) :
  json_ok v -> hd 0 (JSON_stringify v) <> 65279.
Proof.
  intros Hok. destruct (stringify_start v Hok) as (c & tl & -> & Hc).
  unfold value_start in Hc. cbn [hd]. lia.
Qed.

(** ** The codec *)

(** The text of a value survives the payload segment. *)
Lemma payload_segment (v : json) :
  json_ok v ->
  JSON_parse (TextDecoder_decode (b64urlDecode (b64url (OfString (JSON_stringify v)))))
  = Some v.
Proof.
  intros Hok. rewrite b64urlDecode_b64url.
  rewrite Buffer_from_id
    by now apply TextEncoder_bytes, JSON_stringify_well_formed.
  rewrite TextDecoder_TextEncoder.
  - now apply JSON_parse_stringify.
  - now apply JSON_stringify_well_formed.
  - now apply JSON_stringify_no_bom.
Qed.

(** What [encrypt] returns, segment by segment. *)
Lemma encrypt_parts (env : Env) (payload : json) :
  exists encHeader encPayload,
    encPayload = b64url (OfString (JSON_stringify payload)) /\
    no_dot encHeader /\ no_dot encPayload /\
    encrypt env payload
    = encHeader ++ dot ++ encPayload ++ dot
        ++ b64url (OfBuffer (hmac env (encHeader ++ dot ++ encPayload))).
Proof.
  do 2 eexists. split; [ reflexivity | ].
  split; [ apply b64url_no_dot | ]. split; [ apply b64url_no_dot | ].
  reflexivity.
Qed.

(** [decrypt] on a token of three segments. *)
Lemma decrypt_three (env : Env) (a b c : jsstring) :
  no_dot a -> no_dot b -> no_dot c ->
  decrypt env (a ++ dot ++ b ++ dot ++ c)
  = if negb (str_eqb (b64url (OfBuffer (hmac env (a ++ dot ++ b)))) c) then JNull
    else match JSON_parse (TextDecoder_decode (b64urlDecode b)) with
         | Some payload => payload
         | None => JNull
         end.
Proof.
  intros Ha Hb Hc. unfold decrypt.
  now rewrite split_three by assumption.
Qed.

(** Round trip of the codec. *)
Lemma decrypt_encrypt (env : Env) (v : json) :
  json_ok v -> decrypt env (encrypt env v) = v.
Proof.
  intros Hok.
  destruct (encrypt_parts env v) as (h & p & Hp & Hh & Hpd & ->).
  rewrite decrypt_three by (try assumption; apply b64url_no_dot).
  rewrite str_eqb_refl. cbn [negb]. subst p.
  now rewrite payload_segment.
Qed.

Lemma payload_value_ok (p : SessionPayload) :
  valid_payload p -> json_ok (payload_value p).
Proof.
  intros [Hu He]. unfold payload_value, is_safe_integer in *.
  apply ok_obj.
  - repeat constructor; cbn [fst]; vm_compute; intuition discriminate.
  - cbn [map snd]. constructor.
    + destruct (user p) as [u|]; cbn [user_value].
      * apply ok_obj; [ | | reflexivity ].
        -- repeat constructor; cbn [fst]; vm_compute; intuition discriminate.
        -- cbn [map snd]. constructor; [ | constructor ]. apply ok_str. exact Hu.
      * constructor.
    + constructor; [ | constructor ]. apply ok_num.
      change (10 ^ 21) with 1000000000000000000000. lia.
  - reflexivity.
Qed.

Lemma encrypt_signed (env : Env) (payload : json) :
  encrypt env payload = signed_part env payload ++ dot ++ signature env payload.
Proof.
  unfold encrypt, signed_part, signature. cbv zeta.
  now rewrite <- !app_assoc.
Qed.

Lemma split_cases (s : jsstring) :
  no_dot s \/ exists x y r, split 46 s = x :: y :: r.
Proof.
  induction s as [|c s [IH | (x & y & r & IH)]].
  - left. constructor.
  - destruct (Z.eqb_spec c 46) as [->|Hc].
    + right. cbn [split]. change (46 =? 46) with true. cbv iota.
      pose proof (split_nonempty s).
      destruct (split 46 s) as [|p ps]; [ contradiction | ]. eauto.
    + left. now constructor.
  - right. cbn [split]. rewrite IH.
    destruct (c =? 46); eauto.
Qed.

(** A token whose third segment is not the signature of the first two is
    rejected. *)
Lemma decrypt_other_signature (env : Env) (h p sig' : jsstring) :
  no_dot h -> no_dot p ->
  sig' <> b64url (OfBuffer (hmac env (h ++ dot ++ p))) ->
  decrypt env (h ++ dot ++ p ++ dot ++ sig') = JNull.
Proof.
  intros Hh Hp Hne.
  destruct (split_cases sig') as [Hs | (x & y & r & Hs)].
  - rewrite decrypt_three by assumption.
    replace (str_eqb _ sig') with false; [ reflexivity | ].
    symmetry. apply str_eqb_neq. congruence.
  - unfold decrypt, dot. cbn [app].
    rewrite (split_app h) by assumption.
    rewrite (split_app p) by assumption.
    rewrite Hs. reflexivity.
Qed.

Lemma set_nth_differs (i : nat) (c : Z) (s : jsstring) :
  (i < List.length s)%nat -> nth i s 0 <> c -> set_nth i c s <> s.
Proof.
  revert i. induction s as [|x s IH]; intros i Hi Hc; cbn [List.length] in Hi;
    [ lia | ].
  destruct i as [|j]; cbn [set_nth nth] in *.
  - congruence.
  - intros E. injection E as E. apply (IH j); [ lia | assumption | assumption ].
Qed.

Section Claims.

Variable env : Env.


(** C2. Changing any single character of the signature segment of a token
    made by [encrypt] gives a string that [decrypt] rejects.  The signature
    segment is the third of the three segments of the token. *)
Theorem C2_tampered_signature_rejected (P : SessionPayload) (i : nat) (c : Z) :
  (i < List.length (signature env (payload_value P)))%nat ->
  nth i (signature env (payload_value P)) 0 <> c ->
  encrypt env (payload_value P)
  = signed_part env (payload_value P) ++ dot ++ signature env (payload_value P)
  /\ nth_error (split 46 (encrypt env (payload_value P))) 2
     = Some (signature env (payload_value P))
  /\ decrypt env (signed_part env (payload_value P) ++ dot
                    ++ set_nth i c (signature env (payload_value P)))
     = JNull.
Proof.
  intros Hi Hc. split; [ apply encrypt_signed | ]. split.
  - rewrite encrypt_signed. unfold signed_part. rewrite <- !app_assoc.
    rewrite split_three by apply b64url_no_dot. reflexivity.
  - unfold signed_part at 1. rewrite <- !app_assoc.
    apply decrypt_other_signature; try apply b64url_no_dot.
    now apply set_nth_differs.
Qed.

End Claims.

Lemma admin_payload_valid : valid_payload admin_payload.
Proof.
  split.
  - cbn. repeat constructor; vm_compute; intuition discriminate.
  - unfold is_safe_integer. cbn. lia.
Qed.


Lemma C2_witness :
  decrypt dev (signed_part dev (payload_value admin_payload) ++ dot
                 ++ set_nth 0 65 (signature dev (payload_value admin_payload)))
  = JNull.
Proof.
  apply (C2_tampered_signature_rejected dev admin_payload 0%nat 65).
  - vm_compute. lia.
  - vm_compute. discriminate.
Defined.

(** ** The lifecycle on a typed payload *)

Lemma num_ltb_int (a b : Z) : num_ltb (Num a 0) (Num b 0) = (a <? b).
Proof.
  unfold num_ltb, align. change (Z.min 0 0) with 0. change (0 - 0) with 0.
  change (pow10 0) with 1. now rewrite !Z.mul_1_r.
Qed.

Lemma num_sub_int (a b : Z) : num_sub (Num a 0) (Num b 0) = Num (a - b) 0.
Proof.
  unfold num_sub, align. change (Z.min 0 0) with 0. change (0 - 0) with 0.
  change (pow10 0) with 1. rewrite !Z.mul_1_r.
  now rewrite canonical_integer.
Qed.

Lemma decrypt_empty (env : Env) : decrypt env [] = JNull.
Proof. reflexivity. Qed.

Lemma payload_truthy (p : SessionPayload) : truthy (payload_value p) = true.
Proof. reflexivity. Qed.

Lemma payload_expires (p : SessionPayload) :
  member (payload_value p) (str "expires") = Some (JNum (expires p) 0).
Proof. reflexivity. Qed.

Lemma payload_user (p : SessionPayload) :
  member (payload_value p) (str "user") = Some (user_value (user p)).
Proof. reflexivity. Qed.

Lemma payload_refreshed (p : SessionPayload) (now : Z) :
  JObj (obj_set (str "expires") (JNum (shortExpiry now (10 * 60 * 1000)) 0)
          (spread (payload_value p)))
  = payload_value (refreshed_payload p now).
Proof. reflexivity. Qed.

(** A token that decodes to a payload is not the empty string. *)
Lemma typed_token_nonempty (env : Env) (tok : jsstring) (p : SessionPayload) :
  decrypt env tok = payload_value p -> exists c s, tok = c :: s.
Proof.
  destruct tok as [|c s]; [ | eauto ].
  rewrite decrypt_empty. discriminate.
Qed.

Lemma getSession_typed (env : Env) (now : Z) (cookieStore : cookie_store)
  (tok : jsstring) (p : SessionPayload) :
  cookie_value SESSION_COOKIE cookieStore = Some tok ->
  decrypt env tok = payload_value p ->
  getSession env now cookieStore
  = if expires p <? now then Returns JNull else Returns (payload_value p).
Proof.
  intros Hc Hd. unfold getSession. rewrite Hc.
  destruct (typed_token_nonempty env tok p Hd) as (c & s & ->).
  rewrite Hd, payload_truthy, payload_expires. cbn [negb ToNumber].
  now rewrite num_ltb_int.
Qed.

Lemma getSession_null (env : Env) (now : Z) (cookieStore : cookie_store)
  (tok : jsstring) :
  cookie_value SESSION_COOKIE cookieStore = Some tok ->
  decrypt env tok = JNull ->
  getSession env now cookieStore = Returns JNull.
Proof.
  intros Hc Hd. unfold getSession. rewrite Hc.
  destruct tok as [|c s]; [ reflexivity | ]. now rewrite Hd.
Qed.

Lemma updateSession_typed (env : Env) (req : NextRequest) (now1 now2 : Z)
  (tok : jsstring) (p : SessionPayload) :
  cookie_value SESSION_COOKIE (req_cookies req) = Some tok ->
  decrypt env tok = payload_value p ->
  updateSession env req now1 now2
  = if expires p - now1 <? 2 * 60 * 1000
    then Returns (Some (refreshed_response env p now2))
    else Returns None.
Proof.
  intros Hc Hd. unfold updateSession. rewrite Hc.
  destruct (typed_token_nonempty env tok p Hd) as (c & s & ->).
  rewrite Hd, payload_truthy, payload_expires. cbn [negb ToNumber].
  rewrite num_sub_int, num_ltb_int.
  destruct (expires p - now1 <? 2 * 60 * 1000); [ | reflexivity ].
  now rewrite payload_refreshed.
Qed.

Lemma updateSession_null (env : Env) (req : NextRequest) (now1 now2 : Z)
  (tok : jsstring) :
  cookie_value SESSION_COOKIE (req_cookies req) = Some tok ->
  decrypt env tok = JNull ->
  updateSession env req now1 now2 = Returns None.
Proof.
  intros Hc Hd. unfold updateSession. rewrite Hc.
  destruct tok as [|c s]; [ reflexivity | ]. now rewrite Hd.
Qed.

Lemma refreshed_payload_valid (p : SessionPayload) (now : Z) :
  valid_payload p -> is_time now -> valid_payload (refreshed_payload p now).
Proof.
  unfold valid_payload, is_time, is_safe_integer, refreshed_payload, shortExpiry.
  cbn [user expires]. intros [Hu _] Hn. split; [ exact Hu | lia ].
Qed.

Lemma cookies_get_added (n v : jsstring) (o : option CookieOptions)
  (store : cookie_store) :
  (forall c, In c store -> str_eqb n (cookie_name c) = false) ->
  cookies_get n (store ++ [{| cookie_name := n; value := v; options := o |}])
  = Some {| cookie_name := n; value := v; options := o |}.
Proof.
  induction store as [|c store IH]; intros H; cbn [app cookies_get cookie_name].
  - now rewrite str_eqb_refl.
  - rewrite (H c) by now left. apply IH. intros c' Hc'. apply H. now right.
Qed.

Lemma cookie_value_set (n v : jsstring) (o : CookieOptions) (store : cookie_store) :
  cookie_value n (cookies_set n v o store) = Some v.
Proof.
  unfold cookie_value, cookies_set, cookies_delete.
  rewrite cookies_get_added; [ reflexivity | ].
  intros c Hc. apply filter_In in Hc as [_ Hc].
  now apply negb_true_iff in Hc.
Qed.

Lemma cookies_get_other (n m v : jsstring) (o : CookieOptions) (store : cookie_store) :
  str_eqb n m = false ->
  cookies_get n (cookies_set m v o store) = cookies_get n store.
Proof.
  intros Hnm. unfold cookies_set, cookies_delete.
  induction store as [|c store IH]; cbn [filter app cookies_get cookie_name].
  - now rewrite Hnm.
  - destruct (str_eqb m (cookie_name c)) eqn:Hm; cbn [negb].
    + apply str_eqb_eq in Hm. subst m. now rewrite Hnm.
    + cbn [app cookies_get]. destruct (str_eqb n (cookie_name c)); [ reflexivity | exact IH ].
Qed.

(** ** getSession, updateSession and login *)

Section Lifecycle.

Variable env : Env.


(** C4. A validly signed token whose payload has already expired is still
    refreshed by [updateSession]: the response carries a token for the same
    user with [expires] ten minutes after the clock, although [getSession]
    rejects the incoming token at the same clock value.  The refreshed
    token decodes to the refreshed payload. *)
Theorem C4_expired_token_is_refreshed (req : NextRequest) (tok : jsstring)
  (P : SessionPayload) (now1 now2 : Z) :
  cookie_value SESSION_COOKIE (req_cookies req) = Some tok ->
  decrypt env tok = payload_value P ->
  expires P < now1 ->
  updateSession env req now1 now2 = Returns (Some (refreshed_response env P now2))
  /\ expires (refreshed_payload P now2) = now2 + 600000
  /\ getSession env now1 (req_cookies req) = Returns JNull
  /\ (valid_payload P -> is_time now2 ->
      decrypt env (encrypt env (payload_value (refreshed_payload P now2)))
      = payload_value (refreshed_payload P now2)).
Proof.
  intros Hc Hd He. repeat split.
  - rewrite (updateSession_typed env req now1 now2 tok P Hc Hd).
    now replace (expires P - now1 <? 2 * 60 * 1000) with true
      by (symmetry; apply Z.ltb_lt; lia).
  - rewrite (getSession_typed env now1 _ tok P Hc Hd).
    now replace (expires P <? now1) with true by (symmetry; apply Z.ltb_lt; lia).
  - intros Hv Hn. apply decrypt_encrypt, payload_value_ok.
    now apply refreshed_payload_valid.
Qed.

(** C5. [login] with other credentials than admin and password throws the
    error "Invalid credentials" and leaves the cookie store as it was; with
    these credentials it sets the session cookie to the token of the
    payload with user Admin and [expires] 600000 ms after the clock. *)
Theorem C5_login (formData : FormData) (now : Z) (cookieStore : cookie_store) :
  (username formData <> str "admin" \/ password formData <> str "password" ->
   login env formData now cookieStore
   = (Throws (Error (str "Invalid credentials")), cookieStore))
  /\ (username formData = str "admin" -> password formData = str "password" ->
      login env formData now cookieStore
      = (Returns tt,
         cookies_set SESSION_COOKIE (encrypt env (payload_value (login_payload now)))
           (session_options env) cookieStore)
      /\ cookie_value SESSION_COOKIE (snd (login env formData now cookieStore))
         = Some (encrypt env (payload_value (login_payload now)))
      /\ login_payload now
         = {| user := Some {| name := str "Admin" |}; expires := now + 600000 |}
      /\ (is_time now ->
          decrypt env (encrypt env (payload_value (login_payload now)))
          = payload_value (login_payload now))).
Proof.
  split.
  - intros H. unfold login. fold (username formData) (password formData).
    replace (negb (str_eqb (username formData) (str "admin"))
             || negb (str_eqb (password formData) (str "password"))) with true;
      [ reflexivity | ].
    symmetry. apply orb_true_iff.
    destruct H as [H | H]; [ left | right ];
      apply negb_true_iff, str_eqb_neq; exact H.
  - intros Hu Hp.
    assert (E : login env formData now cookieStore
                = (Returns tt,
                   cookies_set SESSION_COOKIE
                     (encrypt env (payload_value (login_payload now)))
                     (session_options env) cookieStore)).
    { unfold login. fold (username formData) (password formData).
      rewrite Hu, Hp, !str_eqb_refl. reflexivity. }
    repeat split.
    + exact E.
    + rewrite E. apply cookie_value_set.
    + intros Hn. apply decrypt_encrypt, payload_value_ok.
      unfold valid_payload, login_payload, is_safe_integer, shortExpiry, is_time in *.
      cbn [user expires name]. split; [ | lia ].
      repeat constructor; vm_compute; intuition discriminate.
Qed.

(** C6. [updateSession] returns no response, hence sets no cookie, when the
    session cookie is absent, when [decrypt] rejects it, and when the time
    left is two minutes or more; so do repeated calls as long as the time
    left stays at the threshold or above.  When less than two minutes are
    left, for instance 90 seconds, the response carries a token whose
    payload expires 600 seconds after the clock. *)
Theorem C6_updateSession_cases (req : NextRequest) (now1 now2 : Z) :
  (cookie_value SESSION_COOKIE (req_cookies req) = None ->
   updateSession env req now1 now2 = Returns None)
  /\ (forall tok,
        cookie_value SESSION_COOKIE (req_cookies req) = Some tok ->
        decrypt env tok = JNull ->
        updateSession env req now1 now2 = Returns None)
  /\ (forall tok P,
        cookie_value SESSION_COOKIE (req_cookies req) = Some tok ->
        decrypt env tok = payload_value P ->
        2 * 60 * 1000 <= expires P - now1 ->
        updateSession env req now1 now2 = Returns None)
  /\ (forall tok P (clocks : list (Z * Z)),
        cookie_value SESSION_COOKIE (req_cookies req) = Some tok ->
        decrypt env tok = payload_value P ->
        Forall (fun t => 2 * 60 * 1000 <= expires P - fst t) clocks ->
        Forall (fun t => updateSession env req (fst t) (snd t) = Returns None) clocks)
  /\ (forall tok P,
        cookie_value SESSION_COOKIE (req_cookies req) = Some tok ->
        decrypt env tok = payload_value P ->
        expires P - now1 < 2 * 60 * 1000 ->
        updateSession env req now1 now2
        = Returns (Some (refreshed_response env P now2))
        /\ expires (refreshed_payload P now2) = now2 + 600 * 1000)
  /\ (forall tok P,
        cookie_value SESSION_COOKIE (req_cookies req) = Some tok ->
        decrypt env tok = payload_value P ->
        expires P = now1 + 90 * 1000 ->
        updateSession env req now1 now2
        = Returns (Some (refreshed_response env P now2))).
Proof.
  assert (Hkeep : forall tok P t1 t2,
            cookie_value SESSION_COOKIE (req_cookies req) = Some tok ->
            decrypt env tok = payload_value P ->
            2 * 60 * 1000 <= expires P - t1 ->
            updateSession env req t1 t2 = Returns None).
  { intros tok P t1 t2 Hc Hd He.
    rewrite (updateSession_typed env req t1 t2 tok P Hc Hd).
    now replace (expires P - t1 <? 2 * 60 * 1000) with false
      by (symmetry; apply Z.ltb_ge; lia). }
  assert (Hrefresh : forall tok P,
            cookie_value SESSION_COOKIE (req_cookies req) = Some tok ->
            decrypt env tok = payload_value P ->
            expires P - now1 < 2 * 60 * 1000 ->
            updateSession env req now1 now2
            = Returns (Some (refreshed_response env P now2))).
  { intros tok P Hc Hd He.
    rewrite (updateSession_typed env req now1 now2 tok P Hc Hd).
    now replace (expires P - now1 <? 2 * 60 * 1000) with true
      by (symmetry; apply Z.ltb_lt; lia). }
  repeat split.
  - intros Hc. unfold updateSession. now rewrite Hc.
  - intros tok Hc Hd. now apply (updateSession_null env req now1 now2 tok).
  - intros tok P. apply Hkeep.
  - intros tok P clocks Hc Hd Hall.
    eapply Forall_impl; [ | exact Hall ].
    intros [t1 t2] Ht. now apply (Hkeep tok P).
  - now apply (Hrefresh tok P).
  - intros tok P Hc Hd He. apply (Hrefresh tok P Hc Hd). lia.
Qed.

(** C9. A payload whose user is null is never authenticated: the protected
    page and its save action redirect to the public page, and the save
    action leaves the cookie store as it was. *)
Theorem C9_null_user_redirected (now : Z) (time : jsstring)
  (cookieStore : cookie_store) (tok : jsstring) (P : SessionPayload) :
  cookie_value SESSION_COOKIE cookieStore = Some tok ->
  decrypt env tok = payload_value P ->
  user P = None ->
  ProtectedPage env now cookieStore = Throws (Redirect (str "/"))
  /\ saveAction env now time cookieStore = (Throws (Redirect (str "/")), cookieStore).
Proof.
  intros Hc Hd Hu.
  unfold ProtectedPage, saveAction, bind, read.
  rewrite (getSession_typed env now cookieStore tok P Hc Hd).
  destruct (expires P <? now).
  - split; reflexivity.
  - unfold opt_member. rewrite payload_user, Hu. split; reflexivity.
Qed.

End Lifecycle.



Lemma C4_witness :
  updateSession dev {| req_cookies := admin_store |} 1762094460001 1762094460002
  = Returns (Some (refreshed_response dev admin_payload 1762094460002)).
Proof.
  apply (C4_expired_token_is_refreshed dev {| req_cookies := admin_store |}
           admin_token admin_payload 1762094460001 1762094460002).
  - reflexivity.
  - vm_compute. reflexivity.
  - cbn. lia.
Defined.

Lemma C5_witness :
  login dev [(str "username", str "bob"); (str "password", str "wrong")]
    1762093860000 []
  = (Throws (Error (str "Invalid credentials")), [])
  /\ cookie_value SESSION_COOKIE
       (snd (login dev [(str "username", str "admin"); (str "password", str "password")]
               1762093860000 []))
     = Some (encrypt dev (payload_value (login_payload 1762093860000))).
Proof.
  split.
  - apply (C5_login dev [(str "username", str "bob"); (str "password", str "wrong")]
             1762093860000 []).
    left. vm_compute. discriminate.
  - apply (C5_login dev [(str "username", str "admin"); (str "password", str "password")]
             1762093860000 []).
    + vm_compute. reflexivity.
    + vm_compute. reflexivity.
Defined.

Lemma C6_witness :
  updateSession dev {| req_cookies := admin_store |} 1762094370000 1762094370003
  = Returns (Some (refreshed_response dev admin_payload 1762094370003))
  /\ updateSession dev {| req_cookies := admin_store |} 1762094340000 1762094340003
     = Returns None.
Proof.
  split.
  - apply (C6_updateSession_cases dev {| req_cookies := admin_store |}
             1762094370000 1762094370003) with (tok := admin_token).
    + reflexivity.
    + vm_compute. reflexivity.
    + cbn. lia.
  - apply (C6_updateSession_cases dev {| req_cookies := admin_store |}
             1762094340000 1762094340003) with (tok := admin_token) (P := admin_payload).
    + reflexivity.
    + vm_compute. reflexivity.
    + cbn. lia.
Defined.

Lemma C9_witness :
  ProtectedPage dev 1762093860000 guest_store = Throws (Redirect (str "/"))
  /\ saveAction dev 1762093860000 (str "10:00:00") guest_store
     = (Throws (Redirect (str "/")), guest_store).
Proof.
  apply (C9_null_user_redirected dev 1762093860000 (str "10:00:00") guest_store
           (encrypt dev (payload_value guest_payload)) guest_payload).
  - reflexivity.
  - vm_compute. reflexivity.
  - reflexivity.
Defined.

(** ** decrypt *)

Section Decrypt.

Variable env : Env.


End Decrypt.


(** ** The flash list *)

Lemma slice_last_short {A} (n : nat) (l : list A) :
  (List.length l <= n)%nat -> slice_last n l = l.
Proof.
  intros H. unfold slice_last.
  replace (List.length l - n)%nat with 0%nat by lia. reflexivity.
Qed.

Lemma slice_last_length {A} (n : nat) (l : list A) :
  List.length (slice_last n l) = Nat.min n (List.length l).
Proof. unfold slice_last. rewrite length_skipn. lia. Qed.

Lemma slice_last_suffix {A} (n : nat) (l : list A) :
  firstn (List.length l - n) l ++ slice_last n l = l.
Proof. apply firstn_skipn. Qed.

Lemma slice_last_app {A} (n : nat) (l es : list A) :
  slice_last n (slice_last n l ++ es) = slice_last n (l ++ es).
Proof.
  unfold slice_last. rewrite !length_app, length_skipn.
  destruct (Nat.le_gt_cases (List.length l) n) as [Hle | Hgt].
  - replace (List.length l - n)%nat with 0%nat by lia.
    cbn [skipn]. f_equal. lia.
  - rewrite (skipn_app (List.length l + List.length es - n)).
    rewrite (skipn_app (List.length l - (List.length l - n) + List.length es - n)).
    rewrite length_skipn, skipn_skipn.
    replace (List.length l - (List.length l - n) + List.length es - n
             + (List.length l - n))%nat
      with (List.length l + List.length es - n)%nat by lia.
    f_equal. f_equal. lia.
Qed.

Lemma slice_last_of_long {A} (n : nat) (l es : list A) :
  (n <= List.length es)%nat -> slice_last n (l ++ es) = slice_last n es.
Proof.
  intros H. unfold slice_last. rewrite length_app, skipn_app.
  rewrite skipn_all2 by lia. cbn [app]. f_equal. lia.
Qed.

Lemma flash_append_slice (l : list jsstring) (e : jsstring) :
  flash_append l e = slice_last 10 (l ++ [e]).
Proof.
  unfold flash_append.
  destruct (Nat.ltb_spec 10 (List.length (l ++ [e]))); [ reflexivity | ].
  symmetry. now apply slice_last_short.
Qed.

Lemma fold_flash_append (es l : list jsstring) :
  es <> [] -> fold_left flash_append es l = slice_last 10 (l ++ es).
Proof.
  revert l. induction es as [|e es IH]; intros l Hne; [ congruence | ].
  cbn [fold_left]. destruct es as [|e' es'].
  - cbn [fold_left]. apply flash_append_slice.
  - rewrite IH by congruence. rewrite flash_append_slice, slice_last_app.
    now rewrite <- app_assoc.
Qed.

Lemma json_strings_map (l : list jsstring) : json_strings (map JStr l) = l.
Proof.
  unfold json_strings. induction l as [|s l IH]; [ reflexivity | ].
  cbn [map flat_map app]. now rewrite IH.
Qed.

Lemma flash_text_ok (l : list jsstring) :
  Forall (Forall is_code_unit) l -> json_ok (JArr (map JStr l)).
Proof.
  intros H. apply ok_arr. apply Forall_map.
  eapply Forall_impl; [ | exact H ]. intros s Hs. now apply ok_str.
Qed.

(** Reading the flash cookie gives back the list that was written. *)
Lemma flash_list_text (l : list jsstring) :
  Forall (Forall is_code_unit) l -> flash_list (Some (flash_text l)) = l.
Proof.
  intros H. unfold flash_list, flash_text.
  rewrite JSON_parse_stringify by now apply flash_text_ok.
  rewrite json_strings_map.
  now destruct (JSON_stringify (JArr (map JStr l))) eqn:E.
Qed.

Lemma slice_last_Forall {A} (P : A -> Prop) (n : nat) (l : list A) :
  Forall P l -> Forall P (slice_last n l).
Proof.
  intros H. rewrite <- (slice_last_suffix n l) in H.
  now apply Forall_app in H.
Qed.

Lemma flash_entry_units (time : jsstring) :
  Forall is_code_unit time -> Forall is_code_unit (flash_entry time).
Proof.
  intros H. unfold flash_entry. apply Forall_app. split; [ | exact H ].
  repeat constructor; vm_compute; intuition discriminate.
Qed.

Lemma cookie_value_other (n m v : jsstring) (o : CookieOptions) (store : cookie_store) :
  str_eqb n m = false ->
  cookie_value n (cookies_set m v o store) = cookie_value n store.
Proof.
  intros H. unfold cookie_value. now rewrite cookies_get_other.
Qed.

(** One save by an authenticated user. *)
Lemma saveAction_authenticated (env : Env) (now : Z) (time : jsstring)
  (store : cookie_store) (tok : jsstring) (P : SessionPayload) (u : UserRef) :
  cookie_value SESSION_COOKIE store = Some tok ->
  decrypt env tok = payload_value P ->
  user P = Some u -> now <= expires P ->
  saveAction env now time store
  = (Throws (Redirect (str "/protected")),
     cookies_set (str "flash")
       (flash_text (flash_append (flash_list (cookie_value (str "flash") store))
                      (flash_entry time)))
       (flash_options env) store).
Proof.
  intros Hc Hd Hu He. unfold saveAction, bind, read, write, throw.
  rewrite (getSession_typed env now store tok P Hc Hd).
  replace (expires P <? now) with false by (symmetry; apply Z.ltb_ge; lia).
  unfold opt_member. rewrite payload_user, Hu. reflexivity.
Qed.

Lemma save_all_flash (env : Env) (tok : jsstring) (P : SessionPayload) (u : UserRef)
  (steps : list (Z * jsstring)) :
  decrypt env tok = payload_value P ->
  user P = Some u ->
  Forall (fun s => fst s <= expires P /\ Forall is_code_unit (snd s)) steps ->
  forall store,
    cookie_value SESSION_COOKIE store = Some tok ->
    Forall (Forall is_code_unit) (flash_list (cookie_value (str "flash") store)) ->
    steps <> [] ->
    cookie_value (str "flash") (save_all env steps store)
    = Some (flash_text
              (fold_left flash_append (map (fun s => flash_entry (snd s)) steps)
                 (flash_list (cookie_value (str "flash") store)))).
Proof.
  intros Hd Hu Hsteps.
  induction Hsteps as [|[now time] steps [Hnow Htime] Hrest IH];
    intros store Hc Hl Hne; [ now elim Hne | ].
  cbn [fst snd] in Hnow, Htime.
  cbn [save_all map fold_left snd].
  rewrite (saveAction_authenticated env now time store tok P u Hc Hd Hu Hnow).
  cbn [snd].
  set (l1 := flash_append (flash_list (cookie_value (str "flash") store))
               (flash_entry time)).
  assert (Hl1 : Forall (Forall is_code_unit) l1).
  { unfold l1. rewrite flash_append_slice. apply slice_last_Forall.
    apply Forall_app. split; [ exact Hl | ].
    constructor; [ now apply flash_entry_units | constructor ]. }
  set (store1 := cookies_set (str "flash") (flash_text l1) (flash_options env) store).
  assert (Hf1 : cookie_value (str "flash") store1 = Some (flash_text l1))
    by apply cookie_value_set.
  assert (Hc1 : cookie_value SESSION_COOKIE store1 = Some tok).
  { unfold store1. rewrite cookie_value_other; [ exact Hc | reflexivity ]. }
  destruct steps as [|s steps'].
  - cbn [save_all map fold_left]. exact Hf1.
  - assert (Hl1' : Forall (Forall is_code_unit)
                     (flash_list (cookie_value (str "flash") store1)))
      by (rewrite Hf1, flash_list_text by exact Hl1; exact Hl1).
    assert (Hne' : s :: steps' <> []) by discriminate.
    rewrite (IH store1 Hc1 Hl1' Hne').
    rewrite Hf1, flash_list_text by exact Hl1. reflexivity.
Qed.

(** C8. Appending to the flash list keeps the last ten entries: one append
    leaves the last ten of the list with the new entry at its end; fifteen
    appends in sequence leave, for every starting list, exactly the last
    ten appended entries, in the order of their appending; and fifteen
    saves in sequence by an authenticated user leave these ten entries in
    the flash cookie. *)
Theorem C8_flash_list_keeps_last_ten :
  (forall l e,
     flash_append l e = slice_last 10 (l ++ [e])
     /\ (List.length (flash_append l e) <= 10)%nat)
  /\ (forall l es,
        List.length es = 15%nat ->
        fold_left flash_append es l = skipn 5 es
        /\ List.length (fold_left flash_append es l) = 10%nat
        /\ l ++ es = (l ++ firstn 5 es) ++ fold_left flash_append es l)
  /\ (forall env store tok P u steps,
        cookie_value SESSION_COOKIE store = Some tok ->
        decrypt env tok = payload_value P ->
        user P = Some u ->
        Forall (fun s => fst s <= expires P /\ Forall is_code_unit (snd s)) steps ->
        Forall (Forall is_code_unit) (flash_list (cookie_value (str "flash") store)) ->
        List.length steps = 15%nat ->
        cookie_value (str "flash") (save_all env steps store)
        = Some (flash_text (skipn 5 (map (fun s => flash_entry (snd s)) steps)))).
Proof.
  assert (Hfold : forall l es, List.length es = 15%nat ->
                    fold_left flash_append es l = skipn 5 es).
  { intros l es Hes.
    rewrite fold_flash_append by (destruct es; [ discriminate | congruence ]).
    rewrite slice_last_of_long by lia.
    unfold slice_last. now rewrite Hes. }
  repeat split.
  - apply flash_append_slice.
  - rewrite flash_append_slice, slice_last_length. lia.
  - now apply Hfold.
  - rewrite Hfold by assumption. rewrite length_skipn. lia.
  - rewrite Hfold by assumption.
    now rewrite <- app_assoc, firstn_skipn.
  - intros env store tok P u steps Hc Hd Hu Hsteps Hl Hlen.
    rewrite (save_all_flash env tok P u steps Hd Hu Hsteps store Hc Hl)
      by (destruct steps; [ discriminate | congruence ]).
    rewrite Hfold by now rewrite length_map.
    reflexivity.
Qed.

Lemma C8_witness :
  cookie_value (str "flash") (save_all dev fifteen_saves admin_store)
  = Some (flash_text (skipn 5 (map (fun s => flash_entry (snd s)) fifteen_saves))).
Proof.
  apply (C8_flash_list_keeps_last_ten) with (tok := admin_token) (P := admin_payload)
    (u := {| name := str "Admin" |}).
  - reflexivity.
  - vm_compute. reflexivity.
  - reflexivity.
  - unfold fifteen_saves. cbn [map].
    repeat (constructor; [ split; [ vm_compute; discriminate | ] | ]);
      try (cbn [snd]; apply Forall_app; split);
      repeat (constructor; [ vm_compute; split; [ discriminate | reflexivity ] | ]);
      try constructor.
  - constructor.
  - reflexivity.
Defined.

(** ** Objects *)

Lemma assoc_none (k : jsstring) (l : list (jsstring * json)) :
  assoc k l = None <-> ~ In k (map fst l).
Proof.
  induction l as [|[k' v] l IH]; cbn [assoc map fst In]; [ tauto | ].
  destruct (str_eqb k k') eqn:E.
  - apply str_eqb_eq in E. subst. split; [ discriminate | tauto ].
  - apply str_eqb_neq in E. rewrite IH. split; [ intros H [H1 | H1] | ]; auto.
Qed.

Lemma replace_prop_keys (k : jsstring) (v : json) (l : list (jsstring * json)) :
  map fst (replace_prop k v l) = map fst l.
Proof.
  induction l as [|[k' v'] l IH]; [ reflexivity | ].
  cbn [replace_prop]. destruct (str_eqb k k'); cbn [map fst]; [ reflexivity | ].
  now rewrite IH.
Qed.

Lemma assoc_replace_prop (k k' : jsstring) (v x : json) (l : list (jsstring * json)) :
  assoc k l = Some x ->
  assoc k' (replace_prop k v l) = if str_eqb k' k then Some v else assoc k' l.
Proof.
  induction l as [|[k0 v0] l IH]; [ discriminate | ].
  cbn [assoc replace_prop]. destruct (str_eqb k k0) eqn:E.
  - intros _. apply str_eqb_eq in E. subst k0. cbn [assoc].
    now destruct (str_eqb k' k).
  - intros H. cbn [assoc]. destruct (str_eqb k' k0) eqn:E'.
    + apply str_eqb_eq in E'. subst k0.
      destruct (str_eqb k' k) eqn:E''; [ | reflexivity ].
      apply str_eqb_eq in E''. subst. rewrite str_eqb_refl in E. discriminate.
    + now apply IH.
Qed.

Lemma insert_index_Add (i : Z) (k : jsstring) (v : json) (l : list (jsstring * json)) :
  Add (k, v) l (insert_index i k v l).
Proof.
  induction l as [|[k' v'] l IH]; cbn [insert_index]; [ constructor | ].
  destruct (array_index k') as [j|]; [ | constructor ].
  destruct (j <? i); [ now constructor | constructor ].
Qed.

Lemma assoc_Add (k k' : jsstring) (v : json) (l l' : list (jsstring * json)) :
  Add (k, v) l l' -> assoc k l = None ->
  assoc k' l' = if str_eqb k' k then Some v else assoc k' l.
Proof.
  induction 1 as [l | [k0 v0] l l' _ IH]; intros Hk; cbn [assoc].
  - reflexivity.
  - cbn [assoc] in Hk. destruct (str_eqb k k0) eqn:E; [ discriminate | ].
    destruct (str_eqb k' k0) eqn:E'; [ | now apply IH ].
    apply str_eqb_eq in E'. subst k0.
    destruct (str_eqb k' k) eqn:E''; [ | reflexivity ].
    apply str_eqb_eq in E''. subst. rewrite str_eqb_refl in E. discriminate.
Qed.

Lemma obj_set_Add (k : jsstring) (v : json) (l : list (jsstring * json)) :
  assoc k l = None -> Add (k, v) l (obj_set k v l).
Proof.
  intros H. unfold obj_set. rewrite H.
  destruct (array_index k); [ apply insert_index_Add | ].
  rewrite <- (app_nil_r l) at 1. apply Add_app.
Qed.

(** Reading a property after CreateDataProperty. *)
Lemma assoc_obj_set (k k' : jsstring) (v : json) (l : list (jsstring * json)) :
  assoc k' (obj_set k v l) = if str_eqb k' k then Some v else assoc k' l.
Proof.
  destruct (assoc k l) as [x|] eqn:E.
  - unfold obj_set. rewrite E. now apply (assoc_replace_prop k k' v x).
  - apply (assoc_Add k k' v l); [ now apply obj_set_Add | exact E ].
Qed.

Lemma Add_keys (a : jsstring * json) (l l' : list (jsstring * json)) :
  Add a l l' -> Add (fst a) (map fst l) (map fst l').
Proof. induction 1; cbn [map]; now constructor. Qed.

Lemma obj_set_NoDup (k : jsstring) (v : json) (l : list (jsstring * json)) :
  NoDup (map fst l) -> NoDup (map fst (obj_set k v l)).
Proof.
  intros H. destruct (assoc k l) as [x|] eqn:E.
  - unfold obj_set. rewrite E. now rewrite replace_prop_keys.
  - pose proof (obj_set_Add k v l E) as HA.
    apply Add_keys in HA. cbn [fst] in HA.
    apply (NoDup_Add HA). split; [ exact H | now apply assoc_none ].
Qed.

Lemma fold_obj_set_NoDup (ms acc : list (jsstring * json)) :
  NoDup (map fst acc) ->
  NoDup (map fst (fold_left (fun o kv => obj_set (fst kv) (snd kv) o) ms acc)).
Proof.
  revert acc. induction ms as [|[k v] ms IH]; intros acc H; cbn [fold_left];
    [ exact H | ].
  apply IH. now apply obj_set_NoDup.
Qed.

Lemma build_object_NoDup (ms : list (jsstring * json)) :
  NoDup (map fst (build_object ms)).
Proof. apply fold_obj_set_NoDup. constructor. Qed.

Lemma assoc_fold_obj_set (k : jsstring) (ms acc : list (jsstring * json)) :
  NoDup (map fst ms) ->
  assoc k (fold_left (fun o kv => obj_set (fst kv) (snd kv) o) ms acc)
  = match assoc k ms with
    | Some v => Some v
    | None => assoc k acc
    end.
Proof.
  revert acc. induction ms as [|[k0 v0] ms IH]; intros acc H; cbn [fold_left];
    [ reflexivity | ].
  cbn [map fst] in H. inversion H as [|? ? Hnotin Hrest]; subst.
  rewrite IH by assumption. cbn [fst snd assoc].
  rewrite assoc_obj_set.
  destruct (str_eqb k k0) eqn:E; [ | reflexivity ].
  apply str_eqb_eq in E. subst k0.
  apply assoc_none in Hnotin. now rewrite Hnotin.
Qed.

(** Copying an object with distinct keys keeps every property. *)
Lemma assoc_build_object (k : jsstring) (ms : list (jsstring * json)) :
  NoDup (map fst ms) -> assoc k (build_object ms) = assoc k ms.
Proof.
  intros H. unfold build_object. rewrite assoc_fold_obj_set by assumption.
  now destruct (assoc k ms).
Qed.

Lemma member_object (props : list (jsstring * json)) (k : jsstring) :
  member (JObj props) k = assoc k props.
Proof. unfold member. now destruct (str_eqb k (str "length")). Qed.

(** An object that the parser returns was built by CreateDataProperty. *)

Lemma parse_number_num (s r : jsstring) (v : json) :
  parse_number s = Some (v, r) -> exists m e, v = JNum m e.
Proof.
  unfold parse_number. intros H.
  repeat match type of H with
         | context [match ?x with _ => _ end] => destruct x eqn:?
         end;
    try discriminate; injection H as <- _; eauto.
Qed.

Lemma parse_literal_value (lit s r : jsstring) (v x : json) :
  parse_literal lit v s = Some (x, r) -> x = v.
Proof.
  unfold parse_literal. destruct (starts_with lit s); [ | discriminate ].
  now intros [= <- _].
Qed.

Lemma parse_value_object_shape (fuel : nat) (s rest : jsstring)
  (props : list (jsstring * json)) :
  parse_value fuel s = Some (JObj props, rest) ->
  exists ms, props = build_object ms.
Proof.
  destruct fuel as [|f]; [ discriminate | ].
  cbn [parse_value].
  destruct (skip_ws s) as [|c r]; [ discriminate | ].
  destruct (c =? 123).
  { destruct (skip_ws r) as [|c1 r1]; [ discriminate | ].
    destruct (c1 =? 125).
    - intros [= <- _]. now exists [].
    - destruct (parse_members f (c1 :: r1)) as [[ms rest']|]; [ | discriminate ].
      intros [= <- _]. now exists ms. }
  destruct (c =? 91).
  { destruct (skip_ws r) as [|c1 r1]; [ discriminate | ].
    destruct (c1 =? 93); [ discriminate | ].
    destruct (parse_elements f (c1 :: r1)) as [[l rest']|]; discriminate. }
  destruct (c =? 34).
  { destruct (parse_string_body r) as [[x rest']|]; discriminate. }
  destruct (c =? 116).
  { intros H. apply parse_literal_value in H. discriminate. }
  destruct (c =? 102).
  { intros H. apply parse_literal_value in H. discriminate. }
  destruct (c =? 110).
  { intros H. apply parse_literal_value in H. discriminate. }
  intros H. apply parse_number_num in H as (m & e & H). discriminate.
Qed.

Lemma JSON_parse_object_keys (text : jsstring) (props : list (jsstring * json)) :
  JSON_parse text = Some (JObj props) -> NoDup (map fst props).
Proof.
  unfold JSON_parse.
  destruct (parse_value _ text) as [[v rest]|] eqn:E; [ | discriminate ].
  destruct (skip_ws rest); [ | discriminate ].
  intros [= ->]. apply parse_value_object_shape in E as [ms ->].
  apply build_object_NoDup.
Qed.

(** The keys of a decoded object are distinct. *)
Lemma decrypt_object_keys (env : Env) (tok : jsstring)
  (props : list (jsstring * json)) :
  decrypt env tok = JObj props -> NoDup (map fst props).
Proof.
  unfold decrypt.
  destruct (split 46 tok) as [|h [|p [|s [|x r]]]]; try discriminate.
  destruct (negb _); [ discriminate | ].
  destruct (JSON_parse _) as [v|] eqn:E; [ | discriminate ].
  intros ->. now apply JSON_parse_object_keys in E.
Qed.

Section Refresh.

Variable env : Env.

(** C10. When [updateSession] refreshes a token whose payload is an object,
    the payload it signs has [expires] ten minutes after the clock and
    every other property as the decoded payload has it; for a session
    payload this is the same user with the new [expires]. *)
Theorem C10_refresh_keeps_other_fields (req : NextRequest) (tok : jsstring)
  (props : list (jsstring * json)) (now1 now2 : Z) (res : NextResponse) :
  cookie_value SESSION_COOKIE (req_cookies req) = Some tok ->
  decrypt env tok = JObj props ->
  updateSession env req now1 now2 = Returns (Some res) ->
  exists refreshed,
    res_cookies res
    = [{| cookie_name := SESSION_COOKIE;
          value := encrypt env refreshed;
          options := Some (session_options env) |}]
    /\ member refreshed (str "expires") = Some (JNum (now2 + 600000) 0)
    /\ (forall k, k <> str "expires" ->
          member refreshed k = member (JObj props) k)
    /\ (forall P, JObj props = payload_value P ->
          refreshed = payload_value (refreshed_payload P now2)
          /\ user (refreshed_payload P now2) = user P).
Proof.
  intros Hc Hd Hu.
  pose proof (decrypt_object_keys env tok props Hd) as Hkeys.
  unfold updateSession in Hu. rewrite Hc in Hu.
  destruct tok as [|c s]; [ rewrite decrypt_empty in Hd; discriminate | ].
  rewrite Hd in Hu. cbn [truthy negb] in Hu.
  destruct (ToNumber (member (JObj props) (str "expires"))) as [x|];
    [ | discriminate ].
  destruct (num_ltb (num_sub x (Num now1 0)) (Num (2 * 60 * 1000) 0));
    [ | discriminate ].
  injection Hu as <-.
  exists (JObj (obj_set (str "expires") (JNum (shortExpiry now2 (10 * 60 * 1000)) 0)
                  (spread (JObj props)))).
  split; [ reflexivity | ].
  rewrite !member_object. split; [ | split ].
  - rewrite assoc_obj_set, str_eqb_refl. reflexivity.
  - intros k Hk. rewrite !member_object, assoc_obj_set.
    replace (str_eqb k (str "expires")) with false
      by (symmetry; now apply str_eqb_neq).
    unfold spread. cbn [own_enumerable]. now apply assoc_build_object.
  - intros P HP. injection HP as ->. split; reflexivity.
Qed.

End Refresh.

Lemma C10_witness :
  exists refreshed,
    res_cookies (refreshed_response dev admin_payload 1762094370003)
    = [{| cookie_name := SESSION_COOKIE;
          value := encrypt dev refreshed;
          options := Some (session_options dev) |}]
    /\ member refreshed (str "expires") = Some (JNum (1762094370003 + 600000) 0)
    /\ (forall k, k <> str "expires" ->
          member refreshed k
          = member (JObj [(str "user", JObj [(str "name", JStr (str "Admin"))]);
                          (str "expires", JNum 1762094460000 0)]) k)
    /\ (forall P,
          JObj [(str "user", JObj [(str "name", JStr (str "Admin"))]);
                (str "expires", JNum 1762094460000 0)] = payload_value P ->
          refreshed = payload_value (refreshed_payload P 1762094370003)
          /\ user (refreshed_payload P 1762094370003) = user P).
Proof.
  apply (C10_refresh_keeps_other_fields dev {| req_cookies := admin_store |}
           admin_token _ 1762094370000 1762094370003).
  - reflexivity.
  - vm_compute. reflexivity.
  - vm_compute. reflexivity.
Defined.

(** * Further properties of the codec *)

(** ** The shape of what [b64url] writes *)

Lemma enc_sextets_length (bs : bytes) :
  Z.of_nat (List.length (enc_sextets bs)) = (4 * Z.of_nat (List.length bs) + 2) / 3.
Proof.
  induction bs as [| a | a b | a b c r IH] using list_ind3; try reflexivity.
  change (enc_sextets (a :: b :: c :: r))
    with ([a / 4; (a mod 4) * 16 + b / 16; (b mod 16) * 4 + c / 64; c mod 64]
            ++ enc_sextets r).
  rewrite length_app. cbn [List.length].
  rewrite !Nat2Z.inj_succ, Nat2Z.inj_add, IH. cbn [List.length Z.of_nat].
  euclid.
Qed.

Lemma b64url_length (input : b64url_input) :
  Z.of_nat (List.length (b64url input))
  = (4 * Z.of_nat (List.length
                     (match input with
                      | OfString s => TextEncoder_encode s
                      | OfBuffer b => b
                      end)) + 2) / 3.
Proof.
  destruct (b64url_sextets input) as (bs & _ & -> & ->).
  rewrite length_map, enc_sextets_length.
  unfold Buffer_from. now rewrite length_map.
Qed.

(** [b64url] writes letters, digits, [-] and [_] only, four characters for
    every three bytes and no padding. *)
Theorem b64url_alphabet_and_length (input : b64url_input) :
  Forall (fun c => 65 <= c <= 90 \/ 97 <= c <= 122 \/ 48 <= c <= 57
                   \/ c = 45 \/ c = 95) (b64url input)
  /\ Z.of_nat (List.length (b64url input))
     = (4 * Z.of_nat (List.length
                        (match input with
                         | OfString s => TextEncoder_encode s
                         | OfBuffer b => b
                         end)) + 2) / 3.
Proof.
  split; [ | apply b64url_length ].
  eapply Forall_impl; [ | apply b64url_url_chars ].
  intros c Hc. unfold url_char, in_range in Hc.
  repeat (apply orb_true_iff in Hc as [Hc | Hc]);
    try (apply andb_true_iff in Hc as [H1 H2];
         apply Z.leb_le in H1; apply Z.leb_le in H2);
    try apply Z.eqb_eq in Hc; lia.
Qed.

(** Decoding what [b64url] wrote gives the bytes back, and for text that
    is well-formed UTF-16 without a leading U+FEFF, the text. *)
Theorem b64url_round_trip :
  (forall b, Forall is_byte b -> b64urlDecode (b64url (OfBuffer b)) = b)
  /\ (forall s, well_formed s -> hd 0 s <> 65279 ->
        TextDecoder_decode (b64urlDecode (b64url (OfString s))) = s).
Proof.
  split.
  - intros b Hb. rewrite b64urlDecode_b64url. now apply Buffer_from_id.
  - intros s Hs Hb. rewrite b64urlDecode_b64url.
    rewrite Buffer_from_id by now apply TextEncoder_bytes.
    now apply TextDecoder_TextEncoder.
Qed.

Lemma b64url_round_trip_witness :
  b64urlDecode (b64url (OfBuffer [0; 255; 16; 62; 251])) = [0; 255; 16; 62; 251]
  /\ TextDecoder_decode (b64urlDecode (b64url (OfString [104; 233; 8364; 55357; 56832])))
     = [104; 233; 8364; 55357; 56832].
Proof.
  split.
  - apply b64url_round_trip.
    repeat constructor; vm_compute; intuition discriminate.
  - apply b64url_round_trip.
    + apply wf_unit; [ vm_compute; intuition discriminate | reflexivity | reflexivity | ].
      apply wf_unit; [ vm_compute; intuition discriminate | reflexivity | reflexivity | ].
      apply wf_unit; [ vm_compute; intuition discriminate | reflexivity | reflexivity | ].
      apply wf_pair; [ reflexivity | reflexivity | constructor ].
    + vm_compute. discriminate.
Defined.

(** ** The signature *)

Lemma round_length (st : list Z) (kw : Z * Z) :
  List.length st = 8%nat -> List.length (SHA256.round st kw) = 8%nat.
Proof.
  intros H.
  do 9 (destruct st as [|? st]; try discriminate H).
  reflexivity.
Qed.

Lemma fold_round_length (l : list (Z * Z)) (st : list Z) :
  List.length st = 8%nat -> List.length (fold_left SHA256.round l st) = 8%nat.
Proof.
  revert st. induction l as [|kw l IH]; intros st H; [ exact H | ].
  cbn [fold_left]. apply IH. now apply round_length.
Qed.

Lemma compress_length (h block : list Z) :
  List.length h = 8%nat -> List.length (SHA256.compress h block) = 8%nat.
Proof.
  intros H. unfold SHA256.compress. cbv zeta.
  rewrite length_map, length_combine, fold_round_length by exact H. lia.
Qed.

Lemma blocks_length (fuel : nat) :
  forall ws h, List.length h = 8%nat ->
  List.length (SHA256.blocks fuel ws h) = 8%nat.
Proof.
  induction fuel as [|f IH]; intros ws h H; cbn [SHA256.blocks]; [ exact H | ].
  destruct ws; [ exact H | ]. apply IH. now apply compress_length.
Qed.

Lemma digest_length (msg : bytes) : List.length (SHA256.digest msg) = 32%nat.
Proof.
  unfold SHA256.digest. cbv zeta.
  pose proof (blocks_length
                (List.length (SHA256.words (List.length (SHA256.pad msg)) (SHA256.pad msg)))
                (SHA256.words (List.length (SHA256.pad msg)) (SHA256.pad msg))
                SHA256.H0 eq_refl) as H.
  destruct (SHA256.blocks _ _ _) as [|? l]; try discriminate H.
  do 8 (destruct l as [|? l]; try discriminate H).
  reflexivity.
Qed.

Lemma hmac_length (env : Env) (data : jsstring) :
  List.length (hmac env data) = 32%nat.
Proof. unfold hmac, hmac_sha256. cbv zeta. apply digest_length. Qed.

(** The signature of every token has 43 characters. *)
Theorem signature_length (env : Env) (payload : json) :
  List.length (signature env payload) = 43%nat.
Proof.
  unfold signature.
  pose proof (b64url_length (OfBuffer (hmac env (signed_part env payload)))) as H.
  cbv beta iota in H. rewrite hmac_length in H. apply Nat2Z.inj. rewrite H. reflexivity.
Qed.

(** ** Tokens *)

Lemma header_segment :
  b64url (OfString (JSON_stringify
            (JObj [(str "alg", JStr (str "HS256")); (str "typ", JStr (str "JWT"))])))
  = str "eyJhbGciOiJIUzI1NiIsInR5cCI6IkpXVCJ9".
Proof. vm_compute. reflexivity. Qed.

(** Every token [encrypt] returns has three segments: the same header for
    all tokens, the payload text in base64url, and the signature; apart
    from the two dots it holds letters, digits, [-] and [_] only. *)
Theorem encrypt_token_shape (env : Env) (payload : json) :
  split 46 (encrypt env payload)
  = [str "eyJhbGciOiJIUzI1NiIsInR5cCI6IkpXVCJ9";
     b64url (OfString (JSON_stringify payload));
     signature env payload]
  /\ Forall (fun c => url_char c = true \/ c = 46) (encrypt env payload).
Proof.
  split.
  - rewrite encrypt_signed. unfold signed_part. rewrite header_segment.
    rewrite <- !app_assoc. apply split_three; try apply b64url_no_dot.
    rewrite <- header_segment. apply b64url_no_dot.
  - unfold encrypt. cbv zeta.
    repeat (apply Forall_app; split);
      try (eapply Forall_impl; [ | apply b64url_url_chars ]; intros c Hc; now left);
      repeat constructor; now right.
Qed.


Lemma mixed_value_ok : json_ok mixed_value.
Proof.
  apply ok_arr. constructor; [ | constructor; [ | constructor; [ | constructor ] ] ].
  - apply ok_str. repeat constructor; vm_compute; intuition discriminate.
  - apply ok_num. vm_compute. reflexivity.
  - apply ok_obj; [ | | reflexivity ].
    + repeat constructor; vm_compute; intuition discriminate.
    + repeat constructor.
Qed.


(** [decrypt] does not look at the header: with any first segment, a token
    signed over that segment and the payload is accepted. *)
Theorem decrypt_ignores_header (env : Env) (h : jsstring) (v : json) :
  no_dot h -> json_ok v ->
  decrypt env
    (h ++ dot ++ b64url (OfString (JSON_stringify v)) ++ dot
       ++ b64url (OfBuffer (hmac env (h ++ dot ++ b64url (OfString (JSON_stringify v))))))
  = v.
Proof.
  intros Hh Hv.
  rewrite decrypt_three by (try assumption; apply b64url_no_dot).
  rewrite str_eqb_refl. cbn [negb]. now rewrite payload_segment.
Qed.

Lemma decrypt_ignores_header_witness :
  decrypt dev
    (str "none" ++ dot ++ b64url (OfString (JSON_stringify (payload_value admin_payload)))
       ++ dot
       ++ b64url (OfBuffer (hmac dev
            (str "none" ++ dot
               ++ b64url (OfString (JSON_stringify (payload_value admin_payload)))))))
  = payload_value admin_payload.
Proof.
  apply (decrypt_ignores_header dev (str "none") (payload_value admin_payload)).
  - repeat constructor; vm_compute; discriminate.
  - apply payload_value_ok. exact admin_payload_valid.
Defined.

(** ** The secret *)

Lemma hmac_secret (env1 env2 : Env) (data : jsstring) :
  secret env1 = secret env2 -> hmac env1 data = hmac env2 data.
Proof. unfold hmac. now intros ->. Qed.

Lemma codec_secret (env1 env2 : Env) :
  secret env1 = secret env2 ->
  (forall v, encrypt env1 v = encrypt env2 v)
  /\ (forall tok, decrypt env1 tok = decrypt env2 tok).
Proof.
  intros H. split.
  - intros v. unfold encrypt. cbv zeta. now rewrite (hmac_secret env1 env2 _ H).
  - intros tok. unfold decrypt.
    destruct (split 46 tok) as [|h [|p [|s [|x r]]]]; try reflexivity.
    cbv zeta. now rewrite (hmac_secret env1 env2 _ H).
Qed.

(** An empty SESSION_SECRET counts as unset: the process signs and verifies
    with the development secret, as does a process without the variable,
    whatever NODE_ENV is. *)
Theorem empty_secret_is_dev_secret (node1 node2 : option jsstring) :
  let env1 := {| SESSION_SECRET := Some []; NODE_ENV := node1 |} in
  let env2 := {| SESSION_SECRET := None; NODE_ENV := node2 |} in
  secret env1 = str "dev-secret-change-me"
  /\ (forall v, encrypt env1 v = encrypt env2 v)
  /\ (forall tok, decrypt env1 tok = decrypt env2 tok)
  /\ (forall v, json_ok v -> decrypt env1 (encrypt env2 v) = v).
Proof.
  intros env1 env2.
  assert (H : secret env1 = secret env2) by reflexivity.
  destruct (codec_secret env1 env2 H) as [He Hd].
  split; [ reflexivity | ]. split; [ exact He | ]. split; [ exact Hd | ].
  intros v Hv. rewrite Hd. now apply decrypt_encrypt.
Qed.

(** ** A payload without [expires] *)

Lemma num_ltb_NaN (b : number) : num_ltb NaN b = false.
Proof. reflexivity. Qed.

(** A signed object without an [expires] property never expires:
    [getSession] returns it at every clock value, and [updateSession]
    never refreshes it. *)
Theorem session_without_expires_never_expires (env : Env) (now now1 now2 : Z)
  (cookieStore : cookie_store) (tok : jsstring) (props : list (jsstring * json)) :
  cookie_value SESSION_COOKIE cookieStore = Some tok ->
  decrypt env tok = JObj props ->
  assoc (str "expires") props = None ->
  getSession env now cookieStore = Returns (JObj props)
  /\ updateSession env {| req_cookies := cookieStore |} now1 now2 = Returns None.
Proof.
  intros Hc Hd He.
  destruct tok as [|c s]; [ rewrite decrypt_empty in Hd; discriminate | ].
  unfold getSession, updateSession. cbn [req_cookies].
  rewrite Hc, Hd. cbn [truthy negb]. rewrite member_object, He.
  split; reflexivity.
Qed.

Lemma session_without_expires_witness :
  getSession dev 99999999999999
    [{| cookie_name := SESSION_COOKIE; value := role_token; options := None |}]
  = Returns (JObj [(str "role", JStr (str "admin"))])
  /\ updateSession dev
       {| req_cookies :=
            [{| cookie_name := SESSION_COOKIE; value := role_token; options := None |}] |}
       99999999999999 99999999999999
     = Returns None.
Proof.
  apply (session_without_expires_never_expires dev 99999999999999 99999999999999
           99999999999999 _ role_token).
  - reflexivity.
  - vm_compute. reflexivity.
  - reflexivity.
Defined.

(** * Further properties of the lifecycle *)

Lemma cookies_get_deleted (n : jsstring) (store : cookie_store) :
  cookies_get n (cookies_delete n store) = None.
Proof.
  unfold cookies_delete. induction store as [|c store IH]; [ reflexivity | ].
  cbn [filter]. destruct (str_eqb n (cookie_name c)) eqn:E; cbn [negb]; [ exact IH | ].
  cbn [cookies_get]. now rewrite E.
Qed.

Lemma cookies_get_delete_other (n m : jsstring) (store : cookie_store) :
  str_eqb n m = false ->
  cookies_get n (cookies_delete m store) = cookies_get n store.
Proof.
  intros Hnm. unfold cookies_delete.
  induction store as [|c store IH]; [ reflexivity | ].
  cbn [filter cookies_get]. destruct (str_eqb m (cookie_name c)) eqn:Hm; cbn [negb].
  - apply str_eqb_eq in Hm. subst m. now rewrite Hnm.
  - cbn [cookies_get]. now destruct (str_eqb n (cookie_name c)).
Qed.

Lemma login_success (env : Env) (formData : FormData) (now : Z) (store : cookie_store) :
  username formData = str "admin" -> password formData = str "password" ->
  login env formData now store
  = (Returns tt,
     cookies_set SESSION_COOKIE (encrypt env (payload_value (login_payload now)))
       (session_options env) store).
Proof.
  intros Hu Hp. unfold login. fold (username formData) (password formData).
  rewrite Hu, Hp, !str_eqb_refl. reflexivity.
Qed.

Lemma login_failure (env : Env) (formData : FormData) (now : Z) (store : cookie_store) :
  username formData <> str "admin" \/ password formData <> str "password" ->
  login env formData now store = (Throws (Error (str "Invalid credentials")), store).
Proof.
  intros H. unfold login. fold (username formData) (password formData).
  replace (negb (str_eqb (username formData) (str "admin"))
           || negb (str_eqb (password formData) (str "password"))) with true;
    [ reflexivity | ].
  symmetry. apply orb_true_iff.
  destruct H as [H | H]; [ left | right ];
    apply negb_true_iff, str_eqb_neq; exact H.
Qed.

Lemma login_payload_valid (now : Z) : is_time now -> valid_payload (login_payload now).
Proof.
  unfold valid_payload, login_payload, is_safe_integer, shortExpiry, is_time.
  cbn [user expires name]. intros Hn. split; [ | lia ].
  repeat constructor; vm_compute; intuition discriminate.
Qed.

Lemma str_neq_eqb (a b : jsstring) : a <> b -> str_eqb a b = false.
Proof. apply str_eqb_neq. Qed.

(** After a successful [login], [getSession] returns the payload of the
    login up to and including the 600000th millisecond, and null later. *)
Theorem login_then_getSession (env : Env) (formData : FormData) (now t : Z)
  (cookieStore : cookie_store) :
  username formData = str "admin" -> password formData = str "password" ->
  is_time now ->
  (t <= now + 600000 ->
   getSession env t (snd (login env formData now cookieStore))
   = Returns (payload_value (login_payload now)))
  /\ (now + 600000 < t ->
      getSession env t (snd (login env formData now cookieStore)) = Returns JNull).
Proof.
  intros Hu Hp Hn. rewrite (login_success env formData now cookieStore Hu Hp).
  cbn [snd].
  assert (E : forall t',
            getSession env t'
              (cookies_set SESSION_COOKIE (encrypt env (payload_value (login_payload now)))
                 (session_options env) cookieStore)
            = if expires (login_payload now) <? t' then Returns JNull
              else Returns (payload_value (login_payload now))).
  { intros t'. apply (getSession_typed env t' _ _ _ (cookie_value_set _ _ _ _)).
    apply decrypt_encrypt, payload_value_ok. now apply login_payload_valid. }
  rewrite E. unfold login_payload, shortExpiry. cbn [expires].
  split; intros Ht.
  - now replace (now + 10 * 60 * 1000 <? t) with false by (symmetry; apply Z.ltb_ge; lia).
  - now replace (now + 10 * 60 * 1000 <? t) with true by (symmetry; apply Z.ltb_lt; lia).
Qed.

Lemma login_then_getSession_witness :
  getSession dev 1762094460000
    (snd (login dev [(str "username", str "admin"); (str "password", str "password")]
            1762093860000 []))
  = Returns (payload_value (login_payload 1762093860000)).
Proof.
  apply (login_then_getSession dev
           [(str "username", str "admin"); (str "password", str "password")]
           1762093860000 1762094460000 []).
  - vm_compute. reflexivity.
  - vm_compute. reflexivity.
  - vm_compute. split; discriminate.
  - vm_compute. discriminate.
Defined.

(** After [logout] there is no session, whatever the store held, and every
    other cookie is as it was. *)
Theorem logout_clears_session (env : Env) (t : Z) (cookieStore : cookie_store) :
  fst (logout cookieStore) = Returns tt
  /\ cookie_value SESSION_COOKIE (snd (logout cookieStore)) = None
  /\ getSession env t (snd (logout cookieStore)) = Returns JNull
  /\ (forall n, n <> SESSION_COOKIE ->
        cookie_value n (snd (logout cookieStore)) = cookie_value n cookieStore).
Proof.
  unfold logout, write. cbn [fst snd].
  assert (E : cookie_value SESSION_COOKIE (cookies_delete SESSION_COOKIE cookieStore) = None).
  { unfold cookie_value. now rewrite cookies_get_deleted. }
  repeat split.
  - exact E.
  - unfold getSession. now rewrite E.
  - intros n Hn. unfold cookie_value.
    now rewrite cookies_get_delete_other by now apply str_neq_eqb.
Qed.

(** A refresh moves [expires] forward by more than eight minutes when the
    clock does not run backwards; the refreshed cookie is a session until
    its own expiry, and it is not refreshed again in its first eight
    minutes. *)
Theorem refresh_extends_session (env : Env) (req : NextRequest) (tok : jsstring)
  (P : SessionPayload) (now1 now2 : Z) :
  cookie_value SESSION_COOKIE (req_cookies req) = Some tok ->
  decrypt env tok = payload_value P ->
  expires P - now1 < 2 * 60 * 1000 -> now1 <= now2 ->
  valid_payload P -> is_time now2 ->
  updateSession env req now1 now2 = Returns (Some (refreshed_response env P now2))
  /\ expires P + 480000 < expires (refreshed_payload P now2)
  /\ (forall t, t <= now2 + 600000 ->
        getSession env t (res_cookies (refreshed_response env P now2))
        = Returns (payload_value (refreshed_payload P now2)))
  /\ (forall t1 t2, t1 <= now2 + 480000 ->
        updateSession env {| req_cookies := res_cookies (refreshed_response env P now2) |}
          t1 t2
        = Returns None).
Proof.
  intros Hc Hd He Hclock Hv Hn.
  assert (Hd' : decrypt env (encrypt env (payload_value (refreshed_payload P now2)))
                = payload_value (refreshed_payload P now2)).
  { apply decrypt_encrypt, payload_value_ok. now apply refreshed_payload_valid. }
  assert (Hc' : cookie_value SESSION_COOKIE (res_cookies (refreshed_response env P now2))
                = Some (encrypt env (payload_value (refreshed_payload P now2))))
    by reflexivity.
  split; [ | split; [ | split ] ].
  - rewrite (updateSession_typed env req now1 now2 tok P Hc Hd).
    now replace (expires P - now1 <? 2 * 60 * 1000) with true
      by (symmetry; apply Z.ltb_lt; lia).
  - unfold refreshed_payload, shortExpiry. cbn [expires]. lia.
  - intros t Ht. rewrite (getSession_typed env t _ _ _ Hc' Hd').
    unfold refreshed_payload, shortExpiry. cbn [expires].
    now replace (now2 + 10 * 60 * 1000 <? t) with false
      by (symmetry; apply Z.ltb_ge; lia).
  - intros t1 t2 Ht.
    rewrite (updateSession_typed env
               {| req_cookies := res_cookies (refreshed_response env P now2) |}
               t1 t2 _ _ Hc' Hd').
    unfold refreshed_payload at 1, shortExpiry. cbn [expires].
    now replace (now2 + 10 * 60 * 1000 - t1 <? 2 * 60 * 1000) with false
      by (symmetry; apply Z.ltb_ge; lia).
Qed.

Lemma refresh_extends_session_witness :
  updateSession dev {| req_cookies := admin_store |} 1762094370000 1762094370003
  = Returns (Some (refreshed_response dev admin_payload 1762094370003))
  /\ expires admin_payload + 480000
     < expires (refreshed_payload admin_payload 1762094370003).
Proof.
  pose proof (refresh_extends_session dev {| req_cookies := admin_store |}
                admin_token admin_payload 1762094370000 1762094370003) as H.
  destruct H as (H1 & H2 & _).
  - reflexivity.
  - vm_compute. reflexivity.
  - vm_compute. reflexivity.
  - vm_compute. discriminate.
  - exact admin_payload_valid.
  - vm_compute. split; discriminate.
  - split; assumption.
Defined.



(** * Further properties of the pages *)

Lemma getSession_absent (env : Env) (now : Z) (store : cookie_store) :
  cookie_value SESSION_COOKIE store = None ->
  getSession env now store = Returns JNull.
Proof. intros Hc. unfold getSession. now rewrite Hc. Qed.

Lemma getSession_expired (env : Env) (now : Z) (store : cookie_store)
  (tok : jsstring) (P : SessionPayload) :
  cookie_value SESSION_COOKIE store = Some tok ->
  decrypt env tok = payload_value P -> expires P < now ->
  getSession env now store = Returns JNull.
Proof.
  intros Hc Hd He. rewrite (getSession_typed env now store tok P Hc Hd).
  now replace (expires P <? now) with true by (symmetry; apply Z.ltb_lt; lia).
Qed.

Lemma getSession_current (env : Env) (now : Z) (store : cookie_store)
  (tok : jsstring) (P : SessionPayload) :
  cookie_value SESSION_COOKIE store = Some tok ->
  decrypt env tok = payload_value P -> now <= expires P ->
  getSession env now store = Returns (payload_value P).
Proof.
  intros Hc Hd He. rewrite (getSession_typed env now store tok P Hc Hd).
  now replace (expires P <? now) with false by (symmetry; apply Z.ltb_ge; lia).
Qed.

(** Without a session the pages fail closed.  When the cookie is absent,
    rejected by [decrypt] or expired, both variants of the protected page
    and of its save action redirect to the public page, the save actions
    leave the cookies as they were, and the public page shows the login
    form. *)
Theorem pages_fail_closed (env : Env) (now : Z) (time : jsstring)
  (cookieStore : cookie_store) :
  cookie_value SESSION_COOKIE cookieStore = None
  \/ (exists tok, cookie_value SESSION_COOKIE cookieStore = Some tok
                  /\ decrypt env tok = JNull)
  \/ (exists tok P, cookie_value SESSION_COOKIE cookieStore = Some tok
                    /\ decrypt env tok = payload_value P /\ expires P < now) ->
  ProtectedPage env now cookieStore = Throws (Redirect (str "/"))
  /\ saveAction env now time cookieStore = (Throws (Redirect (str "/")), cookieStore)
  /\ ProtectedPage_v1 env now cookieStore = Throws (Redirect (str "/"))
  /\ saveAction_v1 env now time cookieStore = (Throws (Redirect (str "/")), cookieStore)
  /\ Home env now cookieStore
     = Returns {| session_shown := JNull; login_form := true;
                  flash_shown := cookie_or_null (str "flash") cookieStore |}.
Proof.
  intros H.
  assert (E : getSession env now cookieStore = Returns JNull).
  { destruct H as [Hc | [(tok & Hc & Hd) | (tok & P & Hc & Hd & He)]].
    - now apply getSession_absent.
    - now apply (getSession_null env now cookieStore tok).
    - now apply (getSession_expired env now cookieStore tok P). }
  unfold ProtectedPage, saveAction, ProtectedPage_v1, saveAction_v1, Home, bind, read.
  rewrite E. repeat split; reflexivity.
Qed.

Lemma pages_fail_closed_witness :
  ProtectedPage dev 1762094460001 admin_store = Throws (Redirect (str "/"))
  /\ saveAction dev 1762094460001 (str "10:10:00") admin_store
     = (Throws (Redirect (str "/")), admin_store).
Proof.
  pose proof (pages_fail_closed dev 1762094460001 (str "10:10:00") admin_store) as H.
  destruct H as (H1 & H2 & _).
  - right. right. exists admin_token, admin_payload.
    split; [ reflexivity | ]. split; [ vm_compute; reflexivity | ].
    vm_compute. reflexivity.
  - split; assumption.
Defined.

(** Each action writes one cookie: [login] and [logout] leave every cookie
    but the session cookie as it was, and both save actions leave every
    cookie but the flash cookie as it was, whatever their outcome. *)
Theorem actions_write_one_cookie (env : Env) (formData : FormData) (now : Z)
  (time : jsstring) (cookieStore : cookie_store) (n : jsstring) :
  (n <> SESSION_COOKIE ->
   cookie_value n (snd (login env formData now cookieStore)) = cookie_value n cookieStore
   /\ cookie_value n (snd (logout cookieStore)) = cookie_value n cookieStore)
  /\ (n <> str "flash" ->
      cookie_value n (snd (saveAction env now time cookieStore))
      = cookie_value n cookieStore
      /\ cookie_value n (snd (saveAction_v1 env now time cookieStore))
         = cookie_value n cookieStore).
Proof.
  split; intros Hn; apply str_neq_eqb in Hn; split.
  - unfold login.
    destruct (negb _ || negb _); cbn [snd throw write]; [ reflexivity | ].
    now apply cookie_value_other.
  - unfold logout, write, cookie_value. cbn [snd].
    now rewrite cookies_get_delete_other.
  - unfold saveAction, bind, read, write, throw.
    destruct (getSession env now cookieStore) as [session | e | ]; try reflexivity.
    destruct (negb _); cbn [snd]; [ reflexivity | ].
    now apply cookie_value_other.
  - unfold saveAction_v1, bind, read, write, throw.
    destruct (getSession env now cookieStore) as [session | e | ]; try reflexivity.
    destruct (negb _); cbn [snd]; [ reflexivity | ].
    now apply cookie_value_other.
Qed.

Lemma actions_write_one_cookie_witness :
  cookie_value SESSION_COOKIE
    (snd (saveAction dev 1762093860000 (str "10:00:00") admin_store))
  = cookie_value SESSION_COOKIE admin_store.
Proof.
  apply (actions_write_one_cookie dev [] 1762093860000 (str "10:00:00") admin_store
           SESSION_COOKIE).
  vm_compute. discriminate.
Defined.

Lemma user_truthy (P : SessionPayload) (u : UserRef) :
  user P = Some u ->
  truthy_opt (opt_member (Some (payload_value P)) (str "user")) = true
  /\ opt_member (member (payload_value P) (str "user")) (str "name")
     = Some (JStr (name u)).
Proof.
  intros Hu. unfold opt_member. rewrite payload_user, Hu. split; reflexivity.
Qed.

(** The protected page shows what the save action wrote: after a save by
    an authenticated user, the next rendering lists the earlier entries
    followed by the new one, ten at most, and greets the user. *)
Theorem save_then_page (env : Env) (now now' : Z) (time : jsstring)
  (cookieStore : cookie_store) (tok : jsstring) (P : SessionPayload) (u : UserRef) :
  cookie_value SESSION_COOKIE cookieStore = Some tok ->
  decrypt env tok = payload_value P ->
  user P = Some u -> now <= expires P -> now' <= expires P ->
  Forall (Forall is_code_unit) (flash_list (cookie_value (str "flash") cookieStore)) ->
  Forall is_code_unit time ->
  ProtectedPage env now' (snd (saveAction env now time cookieStore))
  = Returns {| hello := Some (JStr (name u));
               items := slice_last 10
                          (flash_list (cookie_value (str "flash") cookieStore)
                             ++ [str "Saved at " ++ time]) |}.
Proof.
  intros Hc Hd Hu He He' Hl Ht.
  rewrite (saveAction_authenticated env now time cookieStore tok P u Hc Hd Hu He).
  cbn [snd]. rewrite flash_append_slice. fold (flash_entry time).
  set (l1 := slice_last 10 (_ ++ [flash_entry time])).
  assert (Hl1 : Forall (Forall is_code_unit) l1).
  { unfold l1. apply slice_last_Forall, Forall_app. split; [ exact Hl | ].
    constructor; [ now apply flash_entry_units | constructor ]. }
  unfold ProtectedPage.
  rewrite (getSession_current env now' _ tok P); try assumption.
  - destruct (user_truthy P u Hu) as [-> ->]. cbn [negb].
    rewrite cookie_value_set, flash_list_text by exact Hl1. reflexivity.
  - rewrite cookie_value_other; [ exact Hc | reflexivity ].
Qed.

Lemma save_then_page_witness :
  ProtectedPage dev 1762093865000
    (snd (saveAction dev 1762093865000 (str "10:00:05")
            (snd (saveAction dev 1762093860000 (str "10:00:00") admin_store))))
  = Returns {| hello := Some (JStr (str "Admin"));
               items := slice_last 10
                          ([str "Saved at 10:00:00"] ++ [str "Saved at " ++ str "10:00:05"]) |}.
Proof.
  apply (save_then_page dev 1762093865000 1762093865000 (str "10:00:05")
           (snd (saveAction dev 1762093860000 (str "10:00:00") admin_store))
           admin_token admin_payload {| name := str "Admin" |}).
  - vm_compute. reflexivity.
  - vm_compute. reflexivity.
  - reflexivity.
  - vm_compute. discriminate.
  - vm_compute. discriminate.
  - assert (E : flash_list (cookie_value (str "flash")
                   (snd (saveAction dev 1762093860000 (str "10:00:00") admin_store)))
                = [str "Saved at 10:00:00"]) by (vm_compute; reflexivity).
    rewrite E. constructor; [ | constructor ].
    repeat (constructor; [ vm_compute; split; [ discriminate | reflexivity ] | ]).
    constructor.
  - repeat (constructor; [ vm_compute; split; [ discriminate | reflexivity ] | ]).
    constructor.
Defined.

(** ** Reading the flash cookie *)

Lemma JSON_parse_legacy (c : Z) (rest : jsstring) :
  is_ws c = false -> c <> 123 -> c <> 91 -> c <> 34 -> c <> 116 -> c <> 102 ->
  c <> 110 -> c <> 45 -> ~ 48 <= c <= 57 ->
  JSON_parse (c :: rest) = None.
Proof.
  intros Hws H1 H2 H3 H4 H5 H6 H7 H8. unfold JSON_parse.
  replace (2 * List.length (c :: rest) + 2)%nat
    with (S (2 * List.length (c :: rest) + 1)) by lia.
  cbn [parse_value skip_ws]. rewrite Hws. ztest.
  unfold parse_number. ztest. unfold in_range.
  destruct (Z.leb_spec 48 c); [ | reflexivity ].
  replace (c <=? 57) with false by (symmetry; apply Z.leb_gt; lia).
  reflexivity.
Qed.

Lemma flash_list_legacy (time : jsstring) :
  flash_list (Some (str "Saved at " ++ time)) = [str "Saved at " ++ time].
Proof.
  unfold flash_list.
  change (str "Saved at " ++ time) with (83 :: str "aved at " ++ time).
  rewrite JSON_parse_legacy; [ reflexivity | reflexivity | lia .. ].
Qed.

(** What the pages read from the flash cookie: of a JSON array its
    strings, in order; of a JSON string that string; of any other JSON
    value nothing; and a text that is not JSON, such as the message the
    single-message variant writes, as one entry. *)
Theorem flash_list_reads :
  (forall l, json_ok (JArr l) ->
     flash_list (Some (JSON_stringify (JArr l))) = json_strings l)
  /\ (forall s, Forall is_code_unit s ->
        flash_list (Some (JSON_stringify (JStr s))) = [s])
  /\ (forall v, json_ok v -> (forall l, v <> JArr l) -> (forall s, v <> JStr s) ->
        flash_list (Some (JSON_stringify v)) = [])
  /\ (forall time, flash_list (Some (str "Saved at " ++ time)) = [str "Saved at " ++ time]).
Proof.
  split; [ | split; [ | split ] ].
  - intros l Hl. unfold flash_list. rewrite JSON_parse_stringify by assumption.
    destruct (stringify_start _ Hl) as (c & tl & -> & _). reflexivity.
  - intros s Hs. unfold flash_list.
    rewrite JSON_parse_stringify by now apply ok_str. reflexivity.
  - intros v Hv Harr Hstr. unfold flash_list.
    rewrite JSON_parse_stringify by assumption.
    destruct (stringify_start _ Hv) as (c & tl & -> & _).
    destruct v; try reflexivity; [ now elim (Hstr s) | now elim (Harr l) ].
  - exact flash_list_legacy.
Qed.

Lemma flash_list_reads_witness :
  flash_list (Some (JSON_stringify mixed_value)) = json_strings
    [JStr [55357; 97]; JNum (-17) 0; JObj [(str "0", JNull); (str "a", JBool true)]].
Proof.
  apply (proj1 flash_list_reads). exact mixed_value_ok.
Defined.

(** ** The variant with a single flash message *)

Lemma saveAction_v1_authenticated (env : Env) (now : Z) (time : jsstring)
  (store : cookie_store) (tok : jsstring) (P : SessionPayload) (u : UserRef) :
  cookie_value SESSION_COOKIE store = Some tok ->
  decrypt env tok = payload_value P ->
  user P = Some u -> now <= expires P ->
  saveAction_v1 env now time store
  = (Throws (Redirect (str "/protected")),
     cookies_set (str "flash") (str "Saved at " ++ time) (flash_options_v1 env) store).
Proof.
  intros Hc Hd Hu He. unfold saveAction_v1, bind, read, write, throw.
  rewrite (getSession_current env now store tok P Hc Hd He).
  destruct (user_truthy P u Hu) as [-> _]. reflexivity.
Qed.

(** The single-message save action replaces the flash cookie by its
    message, which its own page shows as it is; the page of the list
    variant shows the same cookie as a list of one entry, and the save
    action of the list variant appends to it. *)
Theorem single_message_variant (env : Env) (now now' : Z) (time time' : jsstring)
  (cookieStore : cookie_store) (tok : jsstring) (P : SessionPayload) (u : UserRef) :
  cookie_value SESSION_COOKIE cookieStore = Some tok ->
  decrypt env tok = payload_value P ->
  user P = Some u -> now <= expires P -> now' <= expires P ->
  Forall is_code_unit time -> Forall is_code_unit time' ->
  let store1 := snd (saveAction_v1 env now time cookieStore) in
  ProtectedPage_v1 env now' store1
  = Returns {| hello_v1 := Some (JStr (name u));
               flash_v1 := Some (str "Saved at " ++ time) |}
  /\ ProtectedPage env now' store1
     = Returns {| hello := Some (JStr (name u)); items := [str "Saved at " ++ time] |}
  /\ ProtectedPage env now' (snd (saveAction env now' time' store1))
     = Returns {| hello := Some (JStr (name u));
                  items := [str "Saved at " ++ time; str "Saved at " ++ time'] |}.
Proof.
  intros Hc Hd Hu He He' Ht Ht' store1.
  assert (E1 : store1 = cookies_set (str "flash") (str "Saved at " ++ time)
                          (flash_options_v1 env) cookieStore).
  { unfold store1.
    now rewrite (saveAction_v1_authenticated env now time cookieStore tok P u Hc Hd Hu He). }
  assert (Hc1 : cookie_value SESSION_COOKIE store1 = Some tok).
  { rewrite E1, cookie_value_other; [ exact Hc | reflexivity ]. }
  assert (Hf1 : cookie_value (str "flash") store1 = Some (str "Saved at " ++ time)).
  { rewrite E1. apply cookie_value_set. }
  assert (Hl1 : flash_list (cookie_value (str "flash") store1) = [str "Saved at " ++ time]).
  { rewrite Hf1. apply flash_list_legacy. }
  destruct (user_truthy P u Hu) as [Hu1 Hu2].
  split; [ | split ].
  - unfold ProtectedPage_v1.
    rewrite (getSession_current env now' store1 tok P Hc1 Hd He'), Hu1, Hu2.
    unfold cookie_or_null. rewrite Hf1. reflexivity.
  - unfold ProtectedPage.
    rewrite (getSession_current env now' store1 tok P Hc1 Hd He'), Hu1, Hu2, Hl1.
    reflexivity.
  - rewrite (saveAction_authenticated env now' time' store1 tok P u Hc1 Hd Hu He').
    cbn [snd]. rewrite Hl1.
    assert (Ha : flash_append [str "Saved at " ++ time] (flash_entry time')
                 = [str "Saved at " ++ time; str "Saved at " ++ time'])
      by reflexivity.
    rewrite Ha. unfold ProtectedPage.
    rewrite (getSession_current env now' _ tok P); try assumption.
    + rewrite Hu1, Hu2. cbn [negb]. rewrite cookie_value_set, flash_list_text.
      * reflexivity.
      * constructor; [ now apply flash_entry_units | ].
        constructor; [ now apply flash_entry_units | constructor ].
    + rewrite cookie_value_other; [ exact Hc1 | reflexivity ].
Qed.

Lemma single_message_variant_witness :
  ProtectedPage dev 1762093860000
    (snd (saveAction_v1 dev 1762093860000 (str "10:00:00") admin_store))
  = Returns {| hello := Some (JStr (str "Admin"));
               items := [str "Saved at " ++ str "10:00:00"] |}.
Proof.
  pose proof (single_message_variant dev 1762093860000 1762093860000
                (str "10:00:00") (str "10:00:05") admin_store admin_token admin_payload
                {| name := str "Admin" |}) as H.
  cbv zeta in H. apply H.
  - reflexivity.
  - vm_compute. reflexivity.
  - reflexivity.
  - vm_compute. discriminate.
  - vm_compute. discriminate.
  - repeat (constructor; [ vm_compute; split; [ discriminate | reflexivity ] | ]).
    constructor.
  - repeat (constructor; [ vm_compute; split; [ discriminate | reflexivity ] | ]).
    constructor.
Defined.

(** ** The public page *)

Lemma Home_current (env : Env) (t : Z) (store : cookie_store)
  (tok : jsstring) (P : SessionPayload) :
  cookie_value SESSION_COOKIE store = Some tok ->
  decrypt env tok = payload_value P -> t <= expires P ->
  Home env t store
  = Returns {| session_shown := payload_value P;
               login_form := match user P with Some _ => false | None => true end;
               flash_shown := cookie_or_null (str "flash") store |}.
Proof.
  intros Hc Hd He. unfold Home.
  rewrite (getSession_current env t store tok P Hc Hd He).
  unfold opt_member. rewrite payload_user. now destruct (user P).
Qed.

Lemma cookie_or_null_other (n m v : jsstring) (o : CookieOptions) (store : cookie_store) :
  str_eqb n m = false ->
  cookie_or_null n (cookies_set m v o store) = cookie_or_null n store.
Proof.
  intros H. unfold cookie_or_null. now rewrite cookie_value_other.
Qed.

Lemma cookie_or_null_deleted (n m : jsstring) (store : cookie_store) :
  str_eqb n m = false ->
  cookie_or_null n (cookies_delete m store) = cookie_or_null n store.
Proof.
  intros H. unfold cookie_or_null, cookie_value.
  now rewrite cookies_get_delete_other.
Qed.

(** A failed login action throws the error of [login], without redirect
    and without a cookie; a successful one redirects to the public page,
    which then shows the session and the logout form until the session
    expires; after the logout action the page shows no session and the
    login form.  The flash message on the page is not touched by either. *)
Theorem home_login_logout (env : Env) (formData : FormData) (now t : Z)
  (cookieStore : cookie_store) :
  (username formData <> str "admin" \/ password formData <> str "password" ->
   loginAction env formData now cookieStore
   = (Throws (Error (str "Invalid credentials")), cookieStore))
  /\ (username formData = str "admin" -> password formData = str "password" ->
      is_time now -> t <= now + 600000 ->
      fst (loginAction env formData now cookieStore) = Throws (Redirect (str "/"))
      /\ Home env t (snd (loginAction env formData now cookieStore))
         = Returns {| session_shown := payload_value (login_payload now);
                      login_form := false;
                      flash_shown := cookie_or_null (str "flash") cookieStore |})
  /\ fst (logoutAction cookieStore) = Throws (Redirect (str "/"))
  /\ Home env t (snd (logoutAction cookieStore))
     = Returns {| session_shown := JNull; login_form := true;
                  flash_shown := cookie_or_null (str "flash") cookieStore |}.
Proof.
  split; [ | split; [ | split ] ].
  - intros H. unfold loginAction, bind.
    now rewrite (login_failure env formData now cookieStore H).
  - intros Hu Hp Hn Ht. unfold loginAction, bind.
    rewrite (login_success env formData now cookieStore Hu Hp).
    cbn [fst snd throw]. split; [ reflexivity | ].
    rewrite (Home_current env t _ _ (login_payload now) (cookie_value_set _ _ _ _)).
    + rewrite cookie_or_null_other by reflexivity. reflexivity.
    + apply decrypt_encrypt, payload_value_ok. now apply login_payload_valid.
    + unfold login_payload, shortExpiry. cbn [expires]. lia.
  - reflexivity.
  - unfold logoutAction, logout, bind, write, throw. cbn [snd].
    unfold Home. rewrite getSession_absent.
    + rewrite cookie_or_null_deleted by reflexivity. reflexivity.
    + unfold cookie_value. now rewrite cookies_get_deleted.
Qed.

Lemma home_login_logout_witness :
  loginAction dev [(str "username", str "admin"); (str "password", str "nope")]
    1762093860000 admin_store
  = (Throws (Error (str "Invalid credentials")), admin_store)
  /\ fst (loginAction dev [(str "username", str "admin"); (str "password", str "password")]
            1762093860000 [])
     = Throws (Redirect (str "/")).
Proof.
  split.
  - apply (home_login_logout dev
             [(str "username", str "admin"); (str "password", str "nope")]
             1762093860000 0 admin_store).
    right. vm_compute. discriminate.
  - pose proof (home_login_logout dev
                  [(str "username", str "admin"); (str "password", str "password")]
                  1762093860000 1762093860000 []) as (_ & H & _).
    apply H.
    + vm_compute. reflexivity.
    + vm_compute. reflexivity.
    + vm_compute. split; discriminate.
    + vm_compute. discriminate.
Defined.

Lemma cookie_or_null_set (n v : jsstring) (o : CookieOptions) (store : cookie_store) :
  v <> [] -> cookie_or_null n (cookies_set n v o store) = Some v.
Proof.
  intros Hv. unfold cookie_or_null. rewrite cookie_value_set.
  destruct v; [ now elim Hv | reflexivity ].
Qed.

Lemma flash_text_start (l : list jsstring) : exists tl, flash_text l = 91 :: tl.
Proof. unfold flash_text. cbn [JSON_stringify app]. eexists. reflexivity. Qed.

(** With a current session the public page shows the payload, and the
    login form exactly when the payload has no user.  It prints the flash
    cookie as it is stored: after a save of the list variant that is the
    JSON text of the whole list, after a save of the single-message
    variant the message; an empty cookie value is not shown. *)
Theorem home_shows_session_and_raw_flash (env : Env) (now t : Z) (time : jsstring)
  (cookieStore : cookie_store) (tok : jsstring) (P : SessionPayload) :
  cookie_value SESSION_COOKIE cookieStore = Some tok ->
  decrypt env tok = payload_value P -> now <= expires P -> t <= expires P ->
  Home env t cookieStore
  = Returns {| session_shown := payload_value P;
               login_form := match user P with Some _ => false | None => true end;
               flash_shown := cookie_or_null (str "flash") cookieStore |}
  /\ (cookie_value (str "flash") cookieStore = Some [] ->
      cookie_or_null (str "flash") cookieStore = None)
  /\ (forall u, user P = Some u ->
        Home env t (snd (saveAction env now time cookieStore))
        = Returns {| session_shown := payload_value P; login_form := false;
                     flash_shown :=
                       Some (JSON_stringify
                               (JArr (map JStr
                                  (slice_last 10
                                     (flash_list (cookie_value (str "flash") cookieStore)
                                        ++ [str "Saved at " ++ time]))))) |}
        /\ Home env t (snd (saveAction_v1 env now time cookieStore))
           = Returns {| session_shown := payload_value P; login_form := false;
                        flash_shown := Some (str "Saved at " ++ time) |}).
Proof.
  intros Hc Hd Hn Ht. split; [ | split ].
  - now apply (Home_current env t cookieStore tok P).
  - intros Hf. unfold cookie_or_null. now rewrite Hf.
  - intros u Hu. split.
    + rewrite (saveAction_authenticated env now time cookieStore tok P u Hc Hd Hu Hn).
      cbn [snd]. rewrite flash_append_slice.
      rewrite (Home_current env t _ tok P); try assumption.
      * rewrite Hu, cookie_or_null_set; [ reflexivity | ].
        destruct (flash_text_start (slice_last 10
                    (flash_list (cookie_value (str "flash") cookieStore)
                       ++ [flash_entry time]))) as (tl & ->).
        discriminate.
      * rewrite cookie_value_other; [ exact Hc | reflexivity ].
    + rewrite (saveAction_v1_authenticated env now time cookieStore tok P u Hc Hd Hu Hn).
      cbn [snd].
      rewrite (Home_current env t _ tok P); try assumption.
      * rewrite Hu. unfold cookie_or_null. rewrite cookie_value_set. reflexivity.
      * rewrite cookie_value_other; [ exact Hc | reflexivity ].
Qed.

Lemma home_shows_session_and_raw_flash_witness :
  Home dev 1762093860000 admin_store
  = Returns {| session_shown := payload_value admin_payload;
               login_form := false;
               flash_shown := cookie_or_null (str "flash") admin_store |}.
Proof.
  apply (home_shows_session_and_raw_flash dev 1762093860000 1762093860000
           (str "10:00:00") admin_store admin_token admin_payload).
  - reflexivity.
  - vm_compute. reflexivity.
  - vm_compute. discriminate.
  - vm_compute. discriminate.
Defined.

(** ** Witnesses of earlier statements *)

Lemma logout_clears_session_witness :
  cookie_value (str "flash")
    (snd (logout (cookies_set (str "flash") (str "Saved at 10:00:00")
                    (flash_options dev) admin_store)))
  = Some (str "Saved at 10:00:00").
Proof.
  pose proof (logout_clears_session dev 0
                (cookies_set (str "flash") (str "Saved at 10:00:00")
                   (flash_options dev) admin_store)) as (_ & _ & _ & H).
  rewrite H; [ reflexivity | vm_compute; discriminate ].
Defined.

Lemma empty_secret_is_dev_secret_witness :
  decrypt {| SESSION_SECRET := Some []; NODE_ENV := Some (str "production") |}
    (encrypt dev mixed_value)
  = mixed_value.
Proof.
  pose proof (empty_secret_is_dev_secret (Some (str "production")) None) as H.
  cbv zeta in H. destruct H as (_ & _ & _ & H).
  apply H. exact mixed_value_ok.
Defined.
